(** * The AI-analysis adapter [analyzeFoodWaste]

    A shallow embedding of the Gemini vision adapter of the food-waste
    reducer: model discovery, the fallback loop over candidate models, the
    tolerant extraction of JSON from the reply, the normalisation of the
    parsed record and the classification of failures at the outer [catch].

    JavaScript values are an inductive type; objects are finite maps from
    property names to values; numbers are IEEE-754 binary64 (Rocq's
    primitive floats); strings are byte strings (the UTF-8 form of the
    JavaScript string).  The network, the file system and the process
    environment are an explicit [world]; every observable effect (network
    calls, console output) is recorded in a trace of events.  [JSON.parse]
    is a lexer and a pushdown automaton over its tokens.  Two things are
    left to the engine and are parameters of the adapter: how a number is
    rendered as a string, and the texts of the TypeErrors the engine itself
    raises; Node's texts are given for the samples. *)

From Stdlib Require Import ZArith Bool List Ascii String Lia.
From Stdlib Require Import Floats.PrimFloat Floats.SpecFloat Floats.FloatOps.
From Stdlib Require Import Floats.FloatAxioms.
From stdpp Require Import gmap strings.
Import ListNotations.

Set Warnings "-inexact-float,-register-all".

(** ** String built-ins of the runtime *)

Module Str.

Local Open Scope string_scope.

(** The double quote character, and texts written with an apostrophe
    wherever the original has a double quote. *)
Definition dquote : ascii := Ascii false true false false false true false false.

Fixpoint q (s : string) : string :=
  match s with
  | EmptyString => EmptyString
  | String c s' => String (if Ascii.eqb c "'" then dquote else c) (q s')
  end.

Fixpoint drop (n : nat) (s : string) : string :=
  match n, s with
  | O, _ => s
  | S _, EmptyString => EmptyString
  | S n', String _ s' => drop n' s'
  end.

(** [String.prototype.includes] *)
Fixpoint includes (s needle : string) : bool :=
  String.prefix needle s
  || match s with
     | EmptyString => false
     | String _ s' => includes s' needle
     end.

(** [String.prototype.endsWith] *)
Definition endsWith (s suffix : string) : bool :=
  Nat.leb (String.length suffix) (String.length s)
  && String.eqb (drop (String.length s - String.length suffix) s) suffix.

Definition lower (c : ascii) : ascii :=
  let n := nat_of_ascii c in
  if Nat.leb 65 n && Nat.leb n 90 then ascii_of_nat (n + 32) else c.

(** [String.prototype.toLowerCase], on the ASCII letters; the adapter only
    compares the result with ASCII file extensions. *)
Fixpoint toLowerCase (s : string) : string :=
  match s with
  | EmptyString => EmptyString
  | String c s' => String (lower c) (toLowerCase s')
  end.

(** [String.prototype.replace] with a string pattern: the first occurrence
    only. *)
Fixpoint replace (s pattern replacement : string) : string :=
  if String.prefix pattern s then replacement ++ drop (String.length pattern) s
  else match s with
       | EmptyString => EmptyString
       | String c s' => String c (replace s' pattern replacement)
       end.

(** [Array.prototype.join] on an array of strings. *)
Fixpoint join (sep : string) (l : list string) : string :=
  match l with
  | [] => EmptyString
  | [x] => x
  | x :: rest => x ++ sep ++ join sep rest
  end.

(** The suffix of [s] that starts at the first occurrence of [c]. *)
Fixpoint from_first (c : ascii) (s : string) : option string :=
  match s with
  | EmptyString => None
  | String a s' => if Ascii.eqb a c then Some s else from_first c s'
  end.

(** The prefix of [s] that ends at the last occurrence of [c]. *)
Fixpoint upto_last (c : ascii) (s : string) : option string :=
  match s with
  | EmptyString => None
  | String a s' =>
      match upto_last c s' with
      | Some p => Some (String a p)
      | None => if Ascii.eqb a c then Some (String a EmptyString) else None
      end
  end.

(** [content.match(/\{[\s\S]*\}/)]: the leftmost match starts at the first
    opening brace and, the star being greedy, ends at the last closing
    brace behind it; without a closing brace behind the first opening one
    no later start can match either.  The result is element 0 of the match
    array, or [None] for [null]. *)
Definition match_braces (content : string) : option string :=
  match from_first "{" content with
  | Some rest => upto_last "}" rest
  | None => None
  end.

(** No character of [s] is [c]. *)
Fixpoint lacks (c : ascii) (s : string) : bool :=
  match s with
  | EmptyString => true
  | String a s' => negb (Ascii.eqb a c) && lacks c s'
  end.

End Str.

(** ** JavaScript values *)

(** A value of the language.  An array carries its elements and, like every
    object, named properties of its own; [JSON.parse] yields arrays without
    named properties and never yields [undefined]. *)
Inductive value : Type :=
| VUndefined
| VNull
| VBool (b : bool)
| VNum (x : float)
| VStr (s : string)
| VArr (elems : list value) (props : gmap string value)
| VObj (props : gmap string value).

(** ToBoolean: what [!v] and [v || w] test. *)
Definition truthy (v : value) : bool :=
  match v with
  | VUndefined | VNull => false
  | VBool b => b
  | VNum x => negb (PrimFloat.eqb x 0 || negb (PrimFloat.eqb x x))
  | VStr s => negb (String.eqb s "")
  | VArr _ _ | VObj _ => true
  end.

(** The [typeof] operator. *)
Definition typeof (v : value) : string :=
  match v with
  | VUndefined => "undefined"
  | VNull => "object"
  | VBool _ => "boolean"
  | VNum _ => "number"
  | VStr _ => "string"
  | VArr _ _ | VObj _ => "object"
  end.

(** [Array.isArray] *)
Definition isArray (v : value) : bool :=
  match v with
  | VArr _ _ => true
  | _ => false
  end.

(** ** [JSON.parse] *)

Module JSON.

Local Open Scope string_scope.

(** The decimal [(-1)^neg * m * 10^e], rounded to the nearest binary64,
    ties to even.  For a negative exponent the quotient is taken with 1080
    fractional bits and a sticky bit: every rounding boundary of binary64
    is a multiple of 2^-1075, so the sticky bit decides as the exact
    quotient would. *)
Definition decimal_to_float (neg : bool) (m : Z) (e : Z) : float :=
  let signed (k : Z) := if neg then (- k)%Z else k in
  SF2Prim
    (if (0 <=? e)%Z then binary_normalize prec emax (signed (m * 10 ^ e)%Z) 0 neg
     else
       let d := (10 ^ (- e))%Z in
       let n := Z.shiftl m 1080 in
       let sticky := if (n mod d =? 0)%Z then 0%Z else 1%Z in
       binary_normalize prec emax (signed (2 * (n / d) + sticky)%Z) (-1081) neg).

Definition is_digit (c : ascii) : bool :=
  let n := nat_of_ascii c in Nat.leb 48 n && Nat.leb n 57.

Definition digit_value (c : ascii) : Z := Z.of_nat (nat_of_ascii c - 48).

(** Reads the longest run of decimal digits at the head of [s], continuing
    the number [acc]: the number read, how many digits, and the rest. *)
Fixpoint digits (s : string) (acc : Z) (n : nat) : Z * nat * string :=
  match s with
  | String c s' =>
      if is_digit c then digits s' (10 * acc + digit_value c)%Z (S n) else (acc, n, s)
  | EmptyString => (acc, n, s)
  end.

(** The exponent part of a number, if any: the exponent and the rest. *)
Definition exponent (s : string) : option (Z * string) :=
  match s with
  | String c r =>
      if Ascii.eqb c "e" || Ascii.eqb c "E" then
        let (neg, r1) :=
          match r with
          | String d r' =>
              if Ascii.eqb d "-" then (true, r')
              else if Ascii.eqb d "+" then (false, r') else (false, r)
          | EmptyString => (false, r)
          end in
        match digits r1 0 0 with
        | (_, O, _) => None
        | (e, _, rest) => Some (if neg then (- e)%Z else e, rest)
        end
      else Some (0%Z, s)
  | EmptyString => Some (0%Z, s)
  end.

(** The fraction part of a number, if any, continuing the integer part [i]:
    the digits read as one integer, how many of them are fractional, and
    the rest. *)
Definition fraction (i : Z) (s : string) : option (Z * nat * string) :=
  match s with
  | String c r =>
      if Ascii.eqb c "." then
        match digits r i 0 with
        | (_, O, _) => None
        | res => Some res
        end
      else Some (i, O, s)
  | EmptyString => Some (i, O, s)
  end.

(** The integer part of a number: a single zero, or digits of which the
    first is not zero. *)
Definition integer (s : string) : option (Z * string) :=
  match s with
  | String c r =>
      if Ascii.eqb c "0" then Some (0%Z, r)
      else if is_digit c then let '(i, _, rest) := digits s 0 0 in Some (i, rest)
      else None
  | EmptyString => None
  end.

(** A JSON number literal and the number it denotes. *)
Definition number_of_literal (s : string) : option float :=
  let (neg, s1) :=
    match s with
    | String c r => if Ascii.eqb c "-" then (true, r) else (false, s)
    | EmptyString => (false, s)
    end in
  match integer s1 with
  | None => None
  | Some (i, s2) =>
      match fraction i s2 with
      | None => None
      | Some (m, nfrac, s3) =>
          match exponent s3 with
          | Some (e, EmptyString) => Some (decimal_to_float neg m (e - Z.of_nat nfrac))
          | _ => None
          end
      end
  end.

(** *** Tokens *)

Inductive token :=
| LBrace | RBrace | LBracket | RBracket | Colon | Comma
| TString (s : string)
| TNumber (x : float)
| TTrue | TFalse | TNull.

(** The four white space characters of JSON. *)
Definition is_ws (c : ascii) : bool :=
  Ascii.eqb c " " || Ascii.eqb c "009" || Ascii.eqb c "010" || Ascii.eqb c "013".

Definition is_letter (c : ascii) : bool :=
  let n := nat_of_ascii c in
  (Nat.leb 65 n && Nat.leb n 90) || (Nat.leb 97 n && Nat.leb n 122).

(** The characters of number literals and of the three keywords. *)
Definition is_word (c : ascii) : bool :=
  is_digit c || is_letter c || Ascii.eqb c "-" || Ascii.eqb c "+" || Ascii.eqb c ".".

Definition word_token (w : string) : option token :=
  if String.eqb w "true" then Some TTrue
  else if String.eqb w "false" then Some TFalse
  else if String.eqb w "null" then Some TNull
  else option_map TNumber (number_of_literal w).

Definition hex_value (c : ascii) : option N :=
  let n := N_of_ascii c in
  if (48 <=? n)%N && (n <=? 57)%N then Some (n - 48)%N
  else if (65 <=? n)%N && (n <=? 70)%N then Some (n - 55)%N
  else if (97 <=? n)%N && (n <=? 102)%N then Some (n - 87)%N
  else None.

(** The UTF-8 bytes of a code point (of a lone surrogate as well). *)
Definition utf8 (cp : N) : string :=
  let b (n : N) := ascii_of_N n in
  let tail (n : N) := b (128 + n mod 64)%N in
  if (cp <? 128)%N then String (b cp) ""
  else if (cp <? 2048)%N then String (b (192 + cp / 64)%N) (String (tail cp) "")
  else if (cp <? 65536)%N then
    String (b (224 + cp / 4096)%N) (String (tail (cp / 64)%N) (String (tail cp) ""))
  else
    String (b (240 + cp / 262144)%N)
      (String (tail (cp / 4096)%N) (String (tail (cp / 64)%N) (String (tail cp) ""))).

Definition is_high_surrogate (u : N) : bool := (55296 <=? u)%N && (u <? 56320)%N.
Definition is_low_surrogate (u : N) : bool := (56320 <=? u)%N && (u <? 57344)%N.

(** The text of a string literal read so far: its bytes, and a high
    surrogate written as an escape that may still pair with the next
    escape. *)
Definition flush (acc : string) (hi : option N) : string :=
  match hi with
  | Some h => acc ++ utf8 h
  | None => acc
  end.

Inductive lex_state :=
| Idle
| Word (w : string)
| InString (acc : string) (hi : option N)
| Escape (acc : string) (hi : option N)
| Unicode (acc : string) (hi : option N) (n : nat) (u : N).

Definition step_idle (c : ascii) : option (list token * lex_state) :=
  if is_ws c then Some ([], Idle)
  else if Ascii.eqb c "{" then Some ([LBrace], Idle)
  else if Ascii.eqb c "}" then Some ([RBrace], Idle)
  else if Ascii.eqb c "[" then Some ([LBracket], Idle)
  else if Ascii.eqb c "]" then Some ([RBracket], Idle)
  else if Ascii.eqb c ":" then Some ([Colon], Idle)
  else if Ascii.eqb c "," then Some ([Comma], Idle)
  else if Ascii.eqb c Str.dquote then Some ([], InString "" None)
  else if is_word c then Some ([], Word (String c ""))
  else None.

Definition escaped (c : ascii) : option ascii :=
  if Ascii.eqb c Str.dquote || Ascii.eqb c "\" || Ascii.eqb c "/" then Some c
  else if Ascii.eqb c "b" then Some "008"%char
  else if Ascii.eqb c "f" then Some "012"%char
  else if Ascii.eqb c "n" then Some "010"%char
  else if Ascii.eqb c "r" then Some "013"%char
  else if Ascii.eqb c "t" then Some "009"%char
  else None.

(** The code unit [u] of a completed [\uXXXX] escape joins the text. *)
Definition code_unit (acc : string) (hi : option N) (u : N) : lex_state :=
  match hi with
  | Some h =>
      if is_low_surrogate u then
        InString (acc ++ utf8 (65536 + (h - 55296) * 1024 + (u - 56320))%N) None
      else if is_high_surrogate u then InString (acc ++ utf8 h) (Some u)
      else InString (acc ++ utf8 h ++ utf8 u) None
  | None =>
      if is_high_surrogate u then InString acc (Some u)
      else InString (acc ++ utf8 u) None
  end.

(** One character of input: the tokens completed by it and the next
    state, or [None] for a syntax error. *)
Definition step (st : lex_state) (c : ascii) : option (list token * lex_state) :=
  match st with
  | Idle => step_idle c
  | Word w =>
      if is_word c then Some ([], Word (w ++ String c ""))
      else
        match word_token w, step_idle c with
        | Some t, Some (out, st') => Some (t :: out, st')
        | _, _ => None
        end
  | InString acc hi =>
      if Ascii.eqb c Str.dquote then Some ([TString (flush acc hi)], Idle)
      else if Ascii.eqb c "\" then Some ([], Escape acc hi)
      else if (N_of_ascii c <? 32)%N then None
      else Some ([], InString (flush acc hi ++ String c "") None)
  | Escape acc hi =>
      if Ascii.eqb c "u" then Some ([], Unicode acc hi 0 0%N)
      else
        match escaped c with
        | Some e => Some ([], InString (flush acc hi ++ String e "") None)
        | None => None
        end
  | Unicode acc hi n u =>
      match hex_value c with
      | Some d =>
          let u' := (16 * u + d)%N in
          Some ([], if Nat.eqb n 3 then code_unit acc hi u' else Unicode acc hi (S n) u')
      | None => None
      end
  end.

(** The end of the input: only between tokens, or at the end of a word. *)
Definition finish (st : lex_state) : option (list token) :=
  match st with
  | Idle => Some []
  | Word w => option_map (fun t => [t]) (word_token w)
  | _ => None
  end.

Fixpoint lex (st : lex_state) (s : string) : option (list token) :=
  match s with
  | EmptyString => finish st
  | String c s' =>
      match step st c with
      | Some (out, st') => option_map (app out) (lex st' s')
      | None => None
      end
  end.

(** *** The grammar, as a pushdown automaton over the tokens *)

(** An open container: an array with its elements so far (last first), an
    object between members, or an object whose member [k] awaits its
    value. *)
Inductive frame :=
| FArr (acc : list value)
| FObj (m : gmap string value)
| FMember (m : gmap string value) (k : string).

Inductive pstate :=
| PValue              (* a value is due *)
| PValueOrEnd         (* behind an opening bracket: a value or the end of the array *)
| PKeyOrEnd           (* behind an opening brace: a key or the end of the object *)
| PKey                (* behind a comma in an object: a key is due *)
| PColon              (* behind a key *)
| PAfter              (* behind a value in a container: a comma or the end *)
| PDone (v : value).  (* the text's value is complete *)

(** A completed value goes to the innermost open container, or is the
    value of the text.  A member given twice keeps the later value. *)
Definition deliver (v : value) (stack : list frame) : option (pstate * list frame) :=
  match stack with
  | [] => Some (PDone v, [])
  | FArr acc :: rest => Some (PAfter, FArr (v :: acc) :: rest)
  | FMember m k :: rest => Some (PAfter, FObj (<[k := v]> m) :: rest)
  | FObj _ :: _ => None
  end.

Definition begin_value (t : token) (stack : list frame) : option (pstate * list frame) :=
  match t with
  | LBrace => Some (PKeyOrEnd, FObj ∅ :: stack)
  | LBracket => Some (PValueOrEnd, FArr [] :: stack)
  | TString s => deliver (VStr s) stack
  | TNumber x => deliver (VNum x) stack
  | TTrue => deliver (VBool true) stack
  | TFalse => deliver (VBool false) stack
  | TNull => deliver VNull stack
  | RBrace | RBracket | Colon | Comma => None
  end.

Definition end_array (stack : list frame) : option (pstate * list frame) :=
  match stack with
  | FArr acc :: rest => deliver (VArr (rev acc) ∅) rest
  | _ => None
  end.

Definition end_object (stack : list frame) : option (pstate * list frame) :=
  match stack with
  | FObj m :: rest => deliver (VObj m) rest
  | _ => None
  end.

Definition begin_member (t : token) (stack : list frame) : option (pstate * list frame) :=
  match t, stack with
  | TString k, FObj m :: rest => Some (PColon, FMember m k :: rest)
  | _, _ => None
  end.

Definition pstep (st : pstate) (stack : list frame) (t : token)
  : option (pstate * list frame) :=
  match st with
  | PValue => begin_value t stack
  | PValueOrEnd =>
      match t with
      | RBracket => end_array stack
      | _ => begin_value t stack
      end
  | PKeyOrEnd =>
      match t with
      | RBrace => end_object stack
      | _ => begin_member t stack
      end
  | PKey => begin_member t stack
  | PColon =>
      match t with
      | Colon => Some (PValue, stack)
      | _ => None
      end
  | PAfter =>
      match t, stack with
      | Comma, FArr _ :: _ => Some (PValue, stack)
      | Comma, FObj _ :: _ => Some (PKey, stack)
      | RBracket, _ => end_array stack
      | RBrace, _ => end_object stack
      | _, _ => None
      end
  | PDone _ => None
  end.

Fixpoint run (st : pstate) (stack : list frame) (ts : list token) : option value :=
  match ts with
  | [] =>
      match st with
      | PDone v => Some v
      | _ => None
      end
  | t :: ts' =>
      match pstep st stack t with
      | Some (st', stack') => run st' stack' ts'
      | None => None
      end
  end.

(** [JSON.parse(text)]: the value, or [None] where it throws a
    SyntaxError. *)
Definition parse (text : string) : option value :=
  match lex Idle text with
  | Some ts => run PValue [] ts
  | None => None
  end.

(** *** Auxiliary notions for the proofs *)

(** Every character of [s] is white space. *)
Fixpoint all_ws (s : string) : bool :=
  match s with
  | EmptyString => true
  | String c s' => is_ws c && all_ws s'
  end.

Definition frame_is_object (f : frame) : bool :=
  match f with
  | FArr _ => false
  | FObj _ | FMember _ _ => true
  end.

(** The outermost open container is an object. *)
Fixpoint root_is_object (stack : list frame) : bool :=
  match stack with
  | [] => false
  | f :: rest =>
      match rest with
      | [] => frame_is_object f
      | _ => root_is_object rest
      end
  end.

Definition is_done (st : pstate) : bool :=
  match st with
  | PDone _ => true
  | _ => false
  end.

End JSON.

(** ** Exceptions *)

(** A thrown value, as far as the adapter inspects one: its [message]
    property, [None] when the value has none (or is itself nullish, which
    the optional chaining of the loop treats alike). *)
Record exn := Exn { message : option string }.

(** [new Error(m)] *)
Definition Error (m : string) : exn := Exn (Some m).

Inductive result (A : Type) : Type :=
| Ok (a : A)
| Throw (e : exn).

Arguments Ok {A} a.
Arguments Throw {A} e.

Definition result_bind {A B} (r : result A) (k : A -> result B) : result B :=
  match r with
  | Ok a => k a
  | Throw e => Throw e
  end.

(** The TypeErrors the runtime itself raises in this program.  The text of
    their messages is the engine's. *)
Inductive type_error :=
| ReadOfNullish (base : value) (prop : string)      (* null.prop *)
| WriteOfNullish (base : value) (prop : string)     (* null.prop = ... *)
| CreateOnPrimitive (prop : string) (target : value)  (* 5 .prop = ..., strict code *)
| NotAFunction (callee : string)                    (* calling what is not callable *)
| NoPrimitiveValue.                                 (* ToPrimitive finds no method *)

(** The messages of Node's engine. *)
Module V8.

Local Open Scope string_scope.

Definition nullish_name (v : value) : string :=
  match v with
  | VNull => "null"
  | _ => "undefined"
  end.

Definition TypeError_message (Number_toString : float -> string) (e : type_error) : string :=
  match e with
  | ReadOfNullish base prop =>
      "Cannot read properties of " ++ nullish_name base ++ " (reading '" ++ prop ++ "')"
  | WriteOfNullish base prop =>
      "Cannot set properties of " ++ nullish_name base ++ " (setting '" ++ prop ++ "')"
  | CreateOnPrimitive prop target =>
      "Cannot create property '" ++ prop ++ "' on " ++ typeof target ++ " '"
      ++ match target with
         | VStr s => s
         | VNum x => Number_toString x
         | VBool true => "true"
         | VBool false => "false"
         | _ => ""
         end
      ++ "'"
  | NotAFunction callee => callee ++ " is not a function"
  | NoPrimitiveValue => "Cannot convert object to primitive value"
  end.

End V8.

(** ** The world outside the adapter *)

(** A [Buffer], of which the adapter takes the base64 rendering only. *)
Record Buffer := { toString_base64 : string }.

Record generationConfig := {
  temperature : float;
  responseMimeType : option string
}.

(** The argument of [getGenerativeModel]. *)
Record modelConfig := {
  model : string;
  generation : generationConfig
}.

Record inlineData := {
  data : string;
  imageMimeType : string
}.

(** One generation attempt: the model configuration and the two parts
    passed to [generateContent]. *)
Record request := {
  config : modelConfig;
  promptPart : string;
  imagePart : inlineData
}.

(** What [fetch] of the model catalog does: it rejects, or it resolves to a
    response with its [ok] flag and what [response.json()] does. *)
Inductive fetch_outcome :=
| FetchRejects (e : exn)
| FetchResponse (ok : bool) (json : result value).

Record world := {
  (** [process.env.GEMINI_API_KEY] *)
  GEMINI_API_KEY : option string;
  (** [readFileSync(path)] *)
  readFileSync : string -> result Buffer;
  (** [fetch(url)] *)
  fetch : string -> fetch_outcome;
  (** The [k]-th generation attempt of the call (lines 113 to 124:
      [getGenerativeModel], [generateContent], [response.text()]): the
      reply text, or what is thrown. *)
  generateContent : nat -> request -> result string
}.

Inductive log_arg :=
| LStr (s : string)
| LStrs (l : list string)
| LUndefined
| LExn (e : exn).

Inductive event :=
| EFetch (url : string)
| EGenerate (req : request)
| ConsoleLog (args : list log_arg)
| ConsoleError (args : list log_arg).

(** ** The monad of the adapter: a trace of events and a result *)

Definition M (A : Type) : Type := list event * result A.

Definition ret {A} (a : A) : M A := ([], Ok a).

Definition throw {A} (e : exn) : M A := ([], Throw e).

Definition bind {A B} (m : M A) (k : A -> M B) : M B :=
  match m with
  | (t, Ok a) => let (t', r) := k a in (t ++ t', r)
  | (t, Throw e) => (t, Throw e)
  end.

(** [try { m } catch (e) { handler e }] *)
Definition try_catch {A} (m : M A) (handler : exn -> M A) : M A :=
  match m with
  | (t, Throw e) => let (t', r) := handler e in (t ++ t', r)
  | _ => m
  end.

Definition emit (ev : event) : M unit := ([ev], Ok tt).

Definition lift {A} (r : result A) : M A := ([], r).

Declare Scope adapter_scope.
Delimit Scope adapter_scope with adapter.

Notation "x <- m ;; k" := (bind m (fun x => k))
  (at level 100, m at next level, right associativity) : adapter_scope.
Notation "m ;; k" := (bind m (fun _ => k))
  (at level 100, right associativity) : adapter_scope.

Declare Scope result_scope.
Delimit Scope result_scope with result.

Notation "x <- m ;; k" := (result_bind m (fun x => k))
  (at level 100, m at next level, right associativity) : result_scope.

(** ** Constants of the adapter *)

Local Open Scope string_scope.

(** The analysis prompt (lines 29 to 54), written with apostrophes for its
    double quotes. *)
Definition prompt : string := Str.q
"Analyze this image of food waste. Identify:
1. All food items visible (be specific: e.g., 'chicken breast', 'mashed potatoes', 'mixed vegetables')
2. Estimate the quantity/portion size wasted for each item
3. Assess the condition of the food (e.g., untouched, partially eaten, spoiled)
4. Provide insights on why this waste might have occurred

Respond in JSON format with this structure:
{
  'items': [
    {
      'name': 'item name',
      'category': 'main dish/side/appetizer/dessert',
      'estimatedAmount': 'description of amount',
      'condition': 'untouched/partially eaten/spoiled/expired',
      'estimatedValue': estimated value in USD
    }
  ],
  'totalEstimatedValue': total estimated value,
  'estimatedWaste': {
    'weight': 'estimated weight in pounds/grams',
    'percentage': 'estimated percentage of original portion'
  },
  'notes': 'observations and potential reasons for waste'
}

IMPORTANT: Respond ONLY with valid JSON, no additional text before or after.".

(** The names tried when the catalog gave none (line 88). *)
Definition fallbackModelNames : list string :=
  ["gemini-pro-vision"; "gemini-pro"; "gemini-1.5-pro"; "gemini-1.5-flash";
   "gemini-1.5-flash-001"].

Definition catalogUrl (apiKey : string) : string :=
  "https://generativelanguage.googleapis.com/v1beta/models?key=" ++ apiKey.

(** The messages of the errors the adapter constructs. *)
Definition msg_key_not_set : string :=
  "GEMINI_API_KEY is not set in your .env file. Please add it.".
Definition msg_parse_failed : string :=
  "Failed to parse AI response. The AI did not return valid JSON.".
Definition msg_invalid_key : string :=
  "Invalid Gemini API key. Please check your .env file and ensure GEMINI_API_KEY is set correctly. Get your key at https://aistudio.google.com/app/apikey".
Definition msg_quota : string :=
  "Gemini API quota exceeded. Please check your Google Cloud billing and add credits. Visit https://console.cloud.google.com/ to manage your quota.".
Definition msg_forbidden : string :=
  "Gemini API access forbidden. Please check your API key permissions and enable the Generative AI API in Google Cloud Console.".
Definition msg_invalid_request : string :=
  "Invalid request to Gemini API. Please check the image format and try again.".
Definition msg_not_found : string :=
  "Image file not found. Please try uploading again.".

(** The message of the error thrown when no model produced content
    (line 139). *)
Definition msg_all_failed (lastError : option exn) (modelNames : list string) : string :=
  "All model attempts failed. Last error: "
  ++ match lastError with
     | Some {| message := Some m |} => if String.eqb m "" then "Unknown error" else m
     | _ => "Unknown error"
     end
  ++ ". Tried models: " ++ Str.join ", " modelNames.

(** The message of the error thrown when no branch of the outer [catch]
    applies (line 197). *)
Definition msg_analysis_failed (error : exn) : string :=
  "AI analysis failed: "
  ++ match message error with
     | Some m => if String.eqb m "" then "Unknown error occurred" else m
     | None => "Unknown error occurred"
     end.

(** ** The callers of the adapter *)

(** [req.file] as the upload middleware leaves it, of which the route
    reads two fields. *)
Record uploadedFile := { path : string; filename : string }.

(** What the route hands to [res]: the status (200 unless [res.status]
    sets it) and the argument of [res.json]. *)
Record response := { statusCode : nat; jsonBody : value }.

(** What the route takes from outside the adapter. *)
Record serverWorld := {
  (** [logWaste] of database/db.js, which is not among these sources: what
      its promise resolves to for an entry, or what it rejects with. *)
  logWaste : value -> result value;
  (** [new Date().toISOString()] *)
  toISOString : string
}.

(** The texts the upload form shows (ImageUpload.jsx, lines 56 to 62). *)
Definition text_quota : string :=
  "⚠️ Gemini API quota exceeded. Please check your Google Cloud billing and add credits to continue using the AI analysis feature.".
Definition text_key_error : string :=
  "⚠️ Gemini API key error. Please check your .env file and ensure GEMINI_API_KEY is set correctly.".
Definition text_rate_limit : string :=
  "⏱️ Rate limit exceeded. Please wait a moment and try again.".
Definition text_not_configured : string :=
  "⚠️ Gemini API key not configured. Please set GEMINI_API_KEY in your .env file.".

(** ** Sample worlds *)

Module Sample.

(** A stand-in for the engine's rendering of numbers: no sample below
    renders one. *)
Definition Number_toString (x : float) : string := "".

(** Node's TypeError messages. *)
Definition TypeError_message : type_error -> string :=
  V8.TypeError_message Number_toString.

Definition imagePath : string := "uploads/plate.jpg".

Definition imageBuffer : Buffer := {| toString_base64 := "/9j/4AAQSkZJRg==" |}.

(** A world with a credential and a readable image, given what the
    catalog request and the generation attempts do. *)
Definition world_of (catalog : fetch_outcome) (attempts : nat -> result string) : world :=
  {| GEMINI_API_KEY := Some "AIza-sample";
     readFileSync := fun _ => Ok imageBuffer;
     fetch := fun _ => catalog;
     generateContent := fun k _ => attempts k |}.

(** The catalog cannot be reached, so that the static names are tried. *)
Definition offline : fetch_outcome := FetchRejects (Error "fetch failed").


(** The first model answers with [text]. *)
Definition replying (text : string) : world := world_of offline (fun _ => Ok text).

(** Every attempt fails with the message [m]. *)
Definition failing (m : string) : world := world_of offline (fun _ => Throw (Error m)).

(** No credential in the environment. *)
Definition no_key : world :=
  {| GEMINI_API_KEY := None;
     readFileSync := fun _ => Ok imageBuffer;
     fetch := fun _ => offline;
     generateContent := fun _ _ => Throw (Error "unreachable") |}.

(** Replies. *)
Definition reply_total_mistyped : string := Str.q
  "{'items': [{'name': 'rice', 'estimatedValue': 2.5}, {'name': 'bread', 'estimatedValue': 1.0}], 'totalEstimatedValue': 'N/A'}".

Definition reply_total_negative : string := Str.q
  "{'items': [], 'totalEstimatedValue': -5}".

Definition reply_with_notes : string := Str.q
  "{'items': [{'name': 'rice'}], 'notes': 'half of the portion was left'}".

Definition reply_empty_object : string := "{}".

Definition reply_prose : string := "I am unable to analyze this image.".

Definition reply_null : string := "null".

Definition reply_quota_string : string := Str.q "'quota'".

Definition reply_fenced : string := Str.q
"```json
{'items': [{'name': 'soup', 'estimatedValue': 3}], 'totalEstimatedValue': 3}
```".


(** An upload as the middleware stored it. *)
Definition upload : uploadedFile :=
  {| path := "uploads/1730400123456-429000111-plate.jpg";
     filename := "1730400123456-429000111-plate.jpg" |}.

(** A database that stores every entry under the id 1. *)
Definition database : serverWorld :=
  {| logWaste := fun entry =>
       Ok (VObj (<["id" := VNum 1]> (<["entry" := entry]> ∅)));
     toISOString := "2025-11-01T12:00:00.000Z" |}.


(** A world whose image cannot be read. *)
Definition unreadable (m : string) : world :=
  {| GEMINI_API_KEY := Some "AIza-sample";
     readFileSync := fun _ => Throw (Error m);
     fetch := fun _ => offline;
     generateContent := fun _ _ => Throw (Error "unreachable") |}.

Definition reply_string_value : string := Str.q
  "{'items': [{'name': 'rice', 'estimatedValue': '2.5'}, {'name': 'bread', 'estimatedValue': 1}]}".

(** The engine's rendering of the two numbers that the reply above makes
    the reduction add to a string. *)
Definition Number_toString_01 (x : float) : string :=
  if PrimFloat.eqb x 0 then "0" else if PrimFloat.eqb x 1 then "1" else "".

End Sample.

(** ** The adapter *)

Section Adapter.

(** The engine's rendering of numbers (Number::toString) and the messages
    of its TypeErrors. *)
Variable Number_toString : float -> string.
Variable TypeError_message : type_error -> string.

Definition TypeError (e : type_error) : exn := Error (TypeError_message e).

(** *** Property access and the [+] operator *)

(** [v.p], for the property names the adapter reads: none of them is
    inherited from a prototype, an index or [length]. *)
Definition get (v : value) (p : string) : result value :=
  match v with
  | VUndefined | VNull => Throw (TypeError (ReadOfNullish v p))
  | VObj m | VArr _ m => Ok (default VUndefined (m !! p))
  | VBool _ | VNum _ | VStr _ => Ok VUndefined
  end.

(** [v.p = x] in strict code (the file is a module): the value with the
    property set; a primitive cannot take a property. *)
Definition set (v : value) (p : string) (x : value) : result value :=
  match v with
  | VObj m => Ok (VObj (<[p := x]> m))
  | VArr elems m => Ok (VArr elems (<[p := x]> m))
  | VUndefined | VNull => Throw (TypeError (WriteOfNullish v p))
  | VBool _ | VNum _ | VStr _ => Throw (TypeError (CreateOnPrimitive p v))
  end.

(** ToString, on values parsed from JSON.  Such an object has no callable
    property, so its conversion finds [Object.prototype.toString] unless a
    member of its own named [toString] hides it, and then no method is
    left; such an array has no named property and is joined with commas by
    [Array.prototype.toString], [null] elements giving the empty string. *)
Fixpoint ToString (v : value) : result string :=
  match v with
  | VUndefined => Ok "undefined"
  | VNull => Ok "null"
  | VBool true => Ok "true"
  | VBool false => Ok "false"
  | VNum x => Ok (Number_toString x)
  | VStr s => Ok s
  | VObj m =>
      match m !! "toString" with
      | Some _ => Throw (TypeError NoPrimitiveValue)
      | None => Ok "[object Object]"
      end
  | VArr elems _ =>
      result_bind
        ((fix each (l : list value) : result (list string) :=
            match l with
            | [] => Ok []
            | x :: rest =>
                result_bind
                  match x with
                  | VUndefined | VNull => Ok ""
                  | _ => ToString x
                  end
                  (fun s => result_bind (each rest) (fun ss => Ok (s :: ss)))
            end) elems)
        (fun ss => Ok (Str.join "," ss))
  end.

(** ToPrimitive without a hint: objects and arrays parsed from JSON have
    no [valueOf] that yields a primitive, so their string is taken. *)
Definition ToPrimitive (v : value) : result value :=
  match v with
  | VArr _ _ | VObj _ => result_bind (ToString v) (fun s => Ok (VStr s))
  | _ => Ok v
  end.

(** ToNumber on the primitives that are not strings. *)
Definition ToNumber (v : value) : float :=
  match v with
  | VNum x => x
  | VBool true => 1
  | VBool false | VNull => 0
  | _ => nan
  end.

(** [a + b] *)
Definition add (a b : value) : result value :=
  (lprim <- ToPrimitive a ;;
   rprim <- ToPrimitive b ;;
   match lprim, rprim with
   | VStr _, _ | _, VStr _ =>
       lstr <- ToString lprim ;;
       rstr <- ToString rprim ;;
       Ok (VStr (lstr ++ rstr))
   | _, _ => Ok (VNum (ToNumber lprim + ToNumber rprim))
   end)%result.

(** *** Stage 5: normalisation (lines 159 to 178) *)

(** The callback of the reduction: [sum + (item.estimatedValue || 0)]. *)
Definition addEstimatedValue (sum item : value) : result value :=
  (estimatedValue <- get item "estimatedValue" ;;
   add sum (if truthy estimatedValue then estimatedValue else VNum 0))%result.

(** [items.reduce(callback, sum)] *)
Fixpoint reduce (items : list value) (sum : value) : result value :=
  match items with
  | [] => Ok sum
  | item :: rest => result_bind (addEstimatedValue sum item) (reduce rest)
  end.

Definition defaultEstimatedWaste : value :=
  VObj (<["weight" := VStr "unknown"]> (<["percentage" := VStr "unknown"]> ∅)).

Definition normalize (analysis : value) : result value :=
  (items <- get analysis "items" ;;
   analysis <-
     (if negb (truthy items) || negb (isArray items)
      then set analysis "items" (VArr [] ∅)
      else Ok analysis) ;;
   totalEstimatedValue <- get analysis "totalEstimatedValue" ;;
   analysis <-
     (if negb (String.eqb (typeof totalEstimatedValue) "number")
      then
        items <- get analysis "items" ;;
        match items with
        | VArr elems _ =>
            sum <- reduce elems (VNum 0) ;;
            set analysis "totalEstimatedValue" sum
        | VUndefined | VNull => Throw (TypeError (ReadOfNullish items "reduce"))
        | _ => Throw (TypeError (NotAFunction "analysis.items.reduce"))
        end
      else Ok analysis) ;;
   estimatedWaste <- get analysis "estimatedWaste" ;;
   if negb (truthy estimatedWaste)
   then set analysis "estimatedWaste" defaultEstimatedWaste
   else Ok analysis)%result.

(** *** Stage 4: tolerant extraction (lines 144 to 157) *)

(** The value parsed from the reply (lines 148 to 153): of the span from
    the first opening to the last closing brace when there is one, of the
    whole reply otherwise; [None] where [JSON.parse] throws. *)
Definition extract (content : string) : option value :=
  match Str.match_braces content with
  | Some jsonMatch => JSON.parse jsonMatch
  | None => JSON.parse content
  end.

(** Only [JSON.parse] can throw inside the [try]; whatever it throws, the
    [catch] logs the reply and throws an error of its own. *)
Definition parseResponse (content : string) : M value :=
  match extract content with
  | Some analysis => ret analysis
  | None =>
      (emit (ConsoleError [LStr "Error parsing JSON response:"; LStr content]) ;;
       throw (Error msg_parse_failed))%adapter
  end.

(** *** Stage 1: the MIME type (lines 25 to 27) *)

Definition mimeType (imagePath : string) : string :=
  if Str.endsWith (Str.toLowerCase imagePath) ".png" then "image/png"
  else if Str.endsWith (Str.toLowerCase imagePath) ".jpg"
          || Str.endsWith (Str.toLowerCase imagePath) ".jpeg" then "image/jpeg"
  else "image/jpeg".

(** *** Stage 2: discovery (lines 56 to 91) *)

(** [m.name.replace('models/', '')] *)
Definition modelName (m : value) : result string :=
  (name <- get m "name" ;;
   match name with
   | VStr s => Ok (Str.replace s "models/" "")
   | VUndefined | VNull => Throw (TypeError (ReadOfNullish name "replace"))
   | _ => Throw (TypeError (NotAFunction "m.name.replace"))
   end)%result.

Fixpoint mapModelName (l : list value) : result (list string) :=
  match l with
  | [] => Ok []
  | m :: rest =>
      (name <- modelName m ;;
       names <- mapModelName rest ;;
       Ok (name :: names))%result
  end.

(** [data.models.map(m => ...)] for a truthy [data.models]. *)
Definition mapModels (models : value) : result (list string) :=
  match models with
  | VArr elems _ => mapModelName elems
  | VUndefined | VNull => Throw (TypeError (ReadOfNullish models "map"))
  | _ => Throw (TypeError (NotAFunction "data.models.map"))
  end.

Definition log_message (err : exn) : log_arg :=
  match message err with
  | Some m => LStr m
  | None => LUndefined
  end.

(** The catalog query with its own [try]/[catch] (lines 57 to 70): the
    value of [availableModels] behind it. *)
Definition availableModels (w : world) (apiKey : string) : M (list string) :=
  try_catch
    (emit (EFetch (catalogUrl apiKey)) ;;
     match fetch w (catalogUrl apiKey) with
     | FetchRejects e => throw e
     | FetchResponse ok json =>
         if ok then
           data <- lift json ;;
           models <- lift (get data "models") ;;
           if truthy models then
             names <- lift (mapModels models) ;;
             emit (ConsoleLog [LStr "Available models:"; LStrs names]) ;;
             ret names
           else ret []
         else ret []
     end)%adapter
    (fun err =>
       emit (ConsoleLog [LStr "Could not list models via REST API, will try default names:";
                         log_message err]) ;;
       ret [])%adapter.

(** The filter of line 82. *)
Definition isVisionModel (name : string) : bool :=
  (Str.includes name "pro" || Str.includes name "flash")
  && negb (Str.includes name "embedding").

(** The value of [modelNames] (lines 76 to 89). *)
Definition modelNames (availableModels : list string) : M (list string) :=
  if Nat.ltb 0 (length availableModels) then
    let visionModels := List.filter isVisionModel availableModels in
    let modelNames :=
      if Nat.ltb 0 (length visionModels) then visionModels
      else List.firstn 3 availableModels in
    (emit (ConsoleLog [LStr "Using models from API:"; LStrs modelNames]) ;;
     ret modelNames)%adapter
  else ret fallbackModelNames.

(** *** Stage 3: the fallback loop (lines 93 to 140) *)

Definition generationRequest (name base64Image mime : string) : request :=
  {| config :=
       {| model := name;
          generation :=
            {| temperature := 0.4;
               responseMimeType :=
                 if Str.includes name "1.5" then Some "application/json" else None |} |};
     promptPart := prompt;
     imagePart := {| data := base64Image; imageMimeType := mime |} |}.

(** The loop from its [k]-th attempt on, over the names still to try: the
    values of [modelContent] and [lastError] behind it. *)
Fixpoint tryModels (w : world) (base64Image mime : string) (k : nat)
  (names : list string) (lastError : option exn) : M (option string * option exn) :=
  match names with
  | [] => ret (None, lastError)
  | name :: rest =>
      let req := generationRequest name base64Image mime in
      (emit (EGenerate req) ;;
       match generateContent w k req with
       | Ok text =>
           emit (ConsoleLog [LStr ("Successfully used model: " ++ name)]) ;;
           ret (Some text, lastError)
       | Throw err =>
           emit (ConsoleLog [LStr ("Model " ++ name ++ " failed, trying next...")]) ;;
           tryModels w base64Image mime (S k) rest (Some err)
       end)%adapter
  end.

(** *** The outer [catch] (lines 179 to 198) *)

(** [error.message?.includes(needle)] *)
Definition messageIncludes (error : exn) (needle : string) : bool :=
  match message error with
  | Some m => Str.includes m needle
  | None => false
  end.

(** The error the [catch] block throws for the error it caught. *)
Definition classify (error : exn) : exn :=
  if messageIncludes error "API_KEY" then Error msg_invalid_key
  else if messageIncludes error "quota" || messageIncludes error "429" then Error msg_quota
  else if messageIncludes error "403" || messageIncludes error "PERMISSION_DENIED"
  then Error msg_forbidden
  else if messageIncludes error "400" || messageIncludes error "INVALID_ARGUMENT"
  then Error msg_invalid_request
  else if messageIncludes error "ENOENT" then Error msg_not_found
  else if messageIncludes error "GEMINI_API_KEY is not set" then error
  else Error (msg_analysis_failed error).

(** *** The whole call *)

(** Discovery and selection together (lines 56 to 91): the candidate
    names. *)
Definition candidates (w : world) (apiKey : string) : M (list string) :=
  (available <- availableModels w apiKey ;;
   names <- modelNames available ;;
   emit (ConsoleLog [LStr "Trying models:"; LStrs names]) ;;
   ret names)%adapter.

(** Lines 16 to 142: the value of [content], the reply of the first model
    that answered. *)
Definition content (w : world) (imagePath : string) : M string :=
  match GEMINI_API_KEY w with
  | None => throw (Error msg_key_not_set)
  | Some apiKey =>
      if String.eqb apiKey "" then throw (Error msg_key_not_set)
      else
        (imageBuffer <- lift (readFileSync w imagePath) ;;
         let base64Image := toString_base64 imageBuffer in
         let mime := mimeType imagePath in
         names <- candidates w apiKey ;;
         attempt <- tryModels w base64Image mime 0 names None ;;
         let (modelContent, lastError) := attempt in
         match modelContent with
         | Some text =>
             if String.eqb text "" then throw (Error (msg_all_failed lastError names))
             else ret text
         | None => throw (Error (msg_all_failed lastError names))
         end)%adapter
  end.

(** The [try] block (lines 16 to 178). *)
Definition analyzeFoodWaste_try (w : world) (imagePath : string) : M value :=
  (text <- content w imagePath ;;
   analysis <- parseResponse text ;;
   lift (normalize analysis))%adapter.

Definition analyzeFoodWaste (w : world) (imagePath : string) : M value :=
  try_catch (analyzeFoodWaste_try w imagePath)
    (fun error =>
       emit (ConsoleError [LStr "Error in AI vision analysis:"; LExn error]) ;;
       throw (classify error))%adapter.

(** *** The server's route [POST /api/analyze-waste] (server/index.js, lines 66 to 109) *)

(** The name under which the middleware stores an upload (lines 30 to 33),
    given the values of [Date.now()] and of
    [Math.round(Math.random() * 1E9)]: a number and a string are added as
    strings. *)
Definition storageFilename (now random : float) (originalname : string) : string :=
  let uniqueSuffix := Number_toString now ++ "-" ++ Number_toString random in
  uniqueSuffix ++ "-" ++ originalname.

(** The status code the [catch] block chooses (lines 93 to 102). *)
Definition statusCodeFor (error_message : string) : nat :=
  if Str.includes error_message "quota" || Str.includes error_message "429"
     || Str.includes error_message "rate limit" then 429
  else if Str.includes error_message "API key" || Str.includes error_message "API_KEY"
          || Str.includes error_message "401" || Str.includes error_message "403"
          || Str.includes error_message "PERMISSION_DENIED" then 401
  else if Str.includes error_message "file not found"
          || Str.includes error_message "ENOENT" then 404
  else if Str.includes error_message "400"
          || Str.includes error_message "INVALID_ARGUMENT" then 400
  else 500.

(** The [catch] block (lines 89 to 108).  [error.message.includes] is
    called without a guard: a thrown value without a message makes the
    block itself throw the engine's TypeError (which names [includes], or
    [message] when the thrown value is itself nullish), and no response is
    sent. *)
Definition analyzeWaste_catch (error : exn) : M response :=
  (emit (ConsoleError [LStr "Error analyzing waste:"; LExn error]) ;;
   match message error with
   | None => throw (TypeError (ReadOfNullish VUndefined "includes"))
   | Some m =>
       ret {| statusCode := statusCodeFor m;
              jsonBody :=
                VObj (<["error" := VStr "Failed to analyze waste"]>
                      (<["message" :=
                           VStr (if String.eqb m ""
                                 then "An unknown error occurred while analyzing the image"
                                 else m)]> ∅)) |}
   end)%adapter.

(** The argument of [logWaste] (lines 76 to 82). *)
Definition wasteEntryOf (file : uploadedFile) (timestamp : string)
  (items estimatedWaste notes : value) : value :=
  VObj (<["imagePath" := VStr ("/uploads/" ++ filename file)]>
        (<["items" := if truthy items then items else VArr [] ∅]>
         (<["estimatedWaste" := if truthy estimatedWaste then estimatedWaste else VObj ∅]>
          (<["timestamp" := VStr timestamp]>
           (<["notes" := if truthy notes then notes else VStr ""]> ∅))))).

(** The handler of the route, given [req.file]. *)
Definition analyzeWaste (w : world) (s : serverWorld) (file : option uploadedFile)
  : M response :=
  try_catch
    match file with
    | None =>
        ret {| statusCode := 400;
               jsonBody := VObj (<["error" := VStr "No image file provided"]> ∅) |}
    | Some file =>
        (let imagePath := path file in
         analysis <- analyzeFoodWaste w imagePath ;;
         items <- lift (get analysis "items") ;;
         estimatedWaste <- lift (get analysis "estimatedWaste") ;;
         notes <- lift (get analysis "notes") ;;
         wasteEntry <-
           lift (logWaste s (wasteEntryOf file (toISOString s)
                               items estimatedWaste notes)) ;;
         ret {| statusCode := 200;
                jsonBody :=
                  VObj (<["success" := VBool true]>
                        (<["analysis" := analysis]>
                         (<["wasteEntry" := wasteEntry]> ∅))) |})%adapter
    end
    analyzeWaste_catch.

(** *** The upload form's error text (ImageUpload.jsx, lines 46 to 65) *)

(** The value of [errorMessage] handed to [setError], given
    [err.response?.data?.message] and [err.message]. *)
Definition errorMessage (response_message err_message : option string) : string :=
  let errorMessage :=
    match response_message, err_message with
    | Some m, Some m' =>
        if negb (String.eqb m "") then m
        else if negb (String.eqb m' "") then m'
        else "Failed to analyze image"
    | Some m, None | None, Some m =>
        if negb (String.eqb m "") then m else "Failed to analyze image"
    | None, None => "Failed to analyze image"
    end in
  if Str.includes errorMessage "quota" then text_quota
  else if Str.includes errorMessage "API key" || Str.includes errorMessage "API_KEY"
  then text_key_error
  else if Str.includes errorMessage "rate limit" then text_rate_limit
  else if Str.includes errorMessage "GEMINI_API_KEY is not set" then text_not_configured
  else errorMessage.

(** *** Notions the properties are stated with *)

(** Neither an object nor an array: a value whose properties cannot be
    set. *)
Definition is_primitive (v : value) : bool :=
  match v with
  | VArr _ _ | VObj _ => false
  | _ => true
  end.

(** Zero of either sign, a positive number or positive infinity. *)
Definition sf_nonneg (x : spec_float) : bool :=
  match x with
  | S754_zero _ => true
  | S754_infinity s | S754_finite s _ _ => negb s
  | S754_nan => false
  end.

(** An item whose [estimatedValue] is a number or is missing (falsy). *)
Definition numericOrMissing (item : value) : Prop :=
  exists estimatedValue,
    get item "estimatedValue" = Ok estimatedValue
    /\ (typeof estimatedValue = "number" \/ truthy estimatedValue = false).

(** The estimated value of an item, zero when it is missing. *)
Definition estimatedValueOrZero (item : value) : float :=
  match get item "estimatedValue" with
  | Ok (VNum x) => if truthy (VNum x) then x else 0
  | _ => 0
  end.

(** The sum of the items' estimated values, taken from the first item on
    in binary64 arithmetic. *)
Definition sumOfEstimatedValues (items : list value) : float :=
  fold_left (fun sum item => sum + estimatedValueOrZero item)%float items 0%float.

(** The error matches one of the substrings the outer [catch] looks
    for. *)
Definition classified (error : exn) : bool :=
  messageIncludes error "API_KEY" || messageIncludes error "quota"
  || messageIncludes error "429" || messageIncludes error "403"
  || messageIncludes error "PERMISSION_DENIED" || messageIncludes error "400"
  || messageIncludes error "INVALID_ARGUMENT" || messageIncludes error "ENOENT".

(** A reply wrapped in a markdown code fence tagged [json]. *)
Definition fenced (t : string) : string :=
  "```json" ++ String "010" (t ++ String "010" "```").

(** The requests of the generation attempts in a trace, in order. *)
Definition generationCalls (t : list event) : list request :=
  flat_map (fun ev => match ev with EGenerate req => [req] | _ => [] end) t.

(** The catalog requests in a trace. *)
Definition fetchCalls (t : list event) : list string :=
  flat_map (fun ev => match ev with EFetch url => [url] | _ => [] end) t.

(** ** Checks of the runtime model *)

Example decimal_tenth : JSON.decimal_to_float false 1 (-1) = 0.1%float.
Proof. vm_compute. reflexivity. Qed.

Example decimal_1e23 : JSON.decimal_to_float false 1 23 = 1e23%float.
Proof. vm_compute. reflexivity. Qed.

Example decimal_smallest : JSON.decimal_to_float false 5 (-324) = 5e-324%float.
Proof. vm_compute. reflexivity. Qed.

Example decimal_below_smallest : JSON.decimal_to_float false 2 (-324) = 0%float.
Proof. vm_compute. reflexivity. Qed.

Example decimal_largest :
  JSON.decimal_to_float false 17976931348623157 292 = 1.7976931348623157e308%float.
Proof. vm_compute. reflexivity. Qed.

Example decimal_overflow : JSON.decimal_to_float true 1 400 = neg_infinity.
Proof. vm_compute. reflexivity. Qed.

Example decimal_odd_integer :
  JSON.decimal_to_float false 9007199254740993 0 = 9007199254740992%float.
Proof. vm_compute. reflexivity. Qed.

Example parse_numbers :
  JSON.parse "[0, -0, 2.5, 1e2, 1.5E-3, 0.30000000000000004]"
  = Some (VArr [VNum 0; VNum (-0); VNum 2.5; VNum 100; VNum 0.0015; VNum (0.1 + 0.2)] ∅).
Proof. vm_compute. reflexivity. Qed.

Example parse_nested :
  JSON.parse (Str.q " {'a': [true, null, {'b': 'c'}], 'a2': {}} ")
  = Some (VObj (<["a" := VArr [VBool true; VNull; VObj (<["b" := VStr "c"]> ∅)] ∅]>
                  (<["a2" := VObj ∅]> ∅))).
Proof. vm_compute. reflexivity. Qed.

Example parse_duplicate_member :
  JSON.parse (Str.q "{'a': 1, 'a': 2}") = Some (VObj (<["a" := VNum 2]> ∅)).
Proof. vm_compute. reflexivity. Qed.

Example parse_rejects :
  map JSON.parse ["01"; "1."; ".5"; "+1"; "[1,]"; "{,}"; "tru"; "1 2"; ""; "[1}"; "nul l"]
  = [None; None; None; None; None; None; None; None; None; None; None].
Proof. vm_compute. reflexivity. Qed.

Example match_braces_greedy :
  Str.match_braces "a { b } c } d" = Some "{ b } c }"%string
  /\ Str.match_braces "} {" = None /\ Str.match_braces "[1, 2]" = None.
Proof. repeat split. Qed.

Example replace_first_only :
  Str.replace "models/gemini-pro" "models/" "" = "gemini-pro"%string
  /\ Str.replace "tunedmodels/models/x" "models/" "" = "tunedmodels/x"%string.
Proof. split; reflexivity. Qed.

Example mimeType_by_extension :
  mimeType "a/Plate.PNG" = "image/png"%string /\ mimeType "a/plate.jpeg" = "image/jpeg"%string
  /\ mimeType "a/plate.webp" = "image/jpeg"%string.
Proof. repeat split. Qed.

(** ** Facts about the monad *)

Local Open Scope list_scope.
#[local] Arguments String.append !s1 s2 : simpl nomatch.

Lemma snd_bind {A B} (m : M A) (k : A -> M B) :
  snd (bind m k) = match snd m with Ok a => snd (k a) | Throw e => Throw e end.
Proof. destruct m as [t [a|e]]; simpl; [destruct (k a)|]; reflexivity. Qed.

Lemma fst_bind {A B} (m : M A) (k : A -> M B) :
  fst (bind m k) = fst m ++ match snd m with Ok a => fst (k a) | Throw _ => [] end.
Proof.
  destruct m as [t [a|e]]; simpl; [destruct (k a); reflexivity|].
  symmetry; apply app_nil_r.
Qed.

Lemma snd_try_catch {A} (m : M A) (h : exn -> M A) :
  snd (try_catch m h) = match snd m with Ok a => Ok a | Throw e => snd (h e) end.
Proof. destruct m as [t [a|e]]; simpl; [|destruct (h e)]; reflexivity. Qed.

Lemma fst_try_catch {A} (m : M A) (h : exn -> M A) :
  fst (try_catch m h) = fst m ++ match snd m with Ok _ => [] | Throw e => fst (h e) end.
Proof.
  destruct m as [t [a|e]]; simpl; [|destruct (h e); reflexivity].
  symmetry; apply app_nil_r.
Qed.

Lemma generationCalls_app (t1 t2 : list event) :
  generationCalls (t1 ++ t2) = generationCalls t1 ++ generationCalls t2.
Proof. apply flat_map_app. Qed.

Lemma fetchCalls_app (t1 t2 : list event) :
  fetchCalls (t1 ++ t2) = fetchCalls t1 ++ fetchCalls t2.
Proof. apply flat_map_app. Qed.

(** ** Facts about strings *)

Lemma prefix_app (b c : string) : String.prefix b (b ++ c)%string = true.
Proof.
  induction b as [|x b IH]; simpl; [destruct c; reflexivity|].
  destruct (ascii_dec x x); [exact IH | congruence].
Qed.

Lemma includes_app (a b c : string) : Str.includes (a ++ b ++ c)%string b = true.
Proof.
  induction a as [|x a IH]; simpl.
  - pose proof (prefix_app b c) as H.
    destruct (b ++ c)%string; simpl in *; rewrite H; reflexivity.
  - rewrite IH. apply orb_true_r.
Qed.

Lemma from_first_app (c : ascii) (pre s : string) :
  Str.lacks c pre = true ->
  Str.from_first c (pre ++ String c s)%string = Some (String c s).
Proof.
  induction pre as [|a pre IH]; simpl; intros H.
  - rewrite Ascii.eqb_refl. reflexivity.
  - apply andb_true_iff in H as [Ha H]. apply negb_true_iff in Ha.
    rewrite Ha. auto.
Qed.

Lemma upto_last_lacks (c : ascii) (s : string) :
  Str.lacks c s = true -> Str.upto_last c s = None.
Proof.
  induction s as [|a s IH]; simpl; intros H; [reflexivity|].
  apply andb_true_iff in H as [Ha H]. apply negb_true_iff in Ha.
  rewrite IH, Ha by assumption. reflexivity.
Qed.

Lemma upto_last_app (c : ascii) (s post : string) :
  Str.lacks c post = true ->
  Str.upto_last c (s ++ String c post)%string = Some (s ++ String c "")%string.
Proof.
  intros H. induction s as [|a s IH]; simpl.
  - rewrite upto_last_lacks, Ascii.eqb_refl by assumption. reflexivity.
  - rewrite IH. reflexivity.
Qed.

Lemma lacks_app (c : ascii) (s1 s2 : string) :
  Str.lacks c (s1 ++ s2)%string = Str.lacks c s1 && Str.lacks c s2.
Proof.
  induction s1 as [|a s1 IH]; simpl; [reflexivity|].
  rewrite IH. apply andb_assoc.
Qed.

Lemma append_assoc (a b c : string) : ((a ++ b) ++ c = a ++ (b ++ c))%string.
Proof. induction a as [|x a IH]; simpl; [reflexivity | rewrite IH; reflexivity]. Qed.

Lemma prefix_inv (n s : string) :
  String.prefix n s = true -> exists post, s = (n ++ post)%string.
Proof.
  revert s. induction n as [|x n IH]; intros s H.
  - exists s. reflexivity.
  - destruct s as [|y s]; [discriminate|]. simpl in H.
    destruct (ascii_dec x y) as [->|]; [|discriminate].
    destruct (IH s H) as [post ->]. exists post. reflexivity.
Qed.

Lemma includes_inv (s n : string) :
  Str.includes s n = true -> exists pre post, s = (pre ++ n ++ post)%string.
Proof.
  induction s as [|c s IH]; cbn [Str.includes]; intros H.
  - rewrite orb_false_r in H. apply prefix_inv in H as [post ->].
    exists EmptyString, post. reflexivity.
  - apply orb_true_iff in H as [H|H].
    + apply prefix_inv in H as [post ->]. exists EmptyString, post. reflexivity.
    + destruct (IH H) as (pre & post & ->). exists (String c pre), post. reflexivity.
Qed.

(** A substring of a substring is a substring. *)
Lemma includes_trans (s a b : string) :
  Str.includes s a = true -> Str.includes a b = true -> Str.includes s b = true.
Proof.
  intros Ha Hb.
  apply includes_inv in Ha as (pre & post & ->).
  apply includes_inv in Hb as (pre' & post' & ->).
  replace (pre ++ (pre' ++ b ++ post') ++ post)%string
    with ((pre ++ pre') ++ b ++ (post' ++ post))%string
    by (rewrite !append_assoc; reflexivity).
  apply includes_app.
Qed.

Lemma append_empty_r (s : string) : (s ++ "")%string = s.
Proof. induction s as [|c s IH]; simpl; [reflexivity | rewrite IH; reflexivity]. Qed.

Lemma includes_suffix (a b : string) : Str.includes (a ++ b)%string b = true.
Proof. rewrite <- (append_empty_r b) at 1. apply includes_app. Qed.

Lemma from_first_inv (c : ascii) (s rest : string) :
  Str.from_first c s = Some rest ->
  exists pre tail, s = (pre ++ rest)%string /\ rest = String c tail
                   /\ Str.lacks c pre = true.
Proof.
  induction s as [|a s IH]; simpl; [discriminate|].
  destruct (Ascii.eqb_spec a c) as [->|Hne].
  - intros [= <-]. exists EmptyString, s. auto.
  - intros H. destruct (IH H) as (pre & tail & -> & -> & Hpre).
    exists (String a pre), tail. simpl.
    apply Ascii.eqb_neq in Hne. rewrite Hne, Hpre. auto.
Qed.

Lemma upto_last_inv (c : ascii) (s p : string) :
  Str.upto_last c s = Some p ->
  exists body post, s = (p ++ post)%string /\ p = (body ++ String c "")%string
                    /\ Str.lacks c post = true.
Proof.
  revert p. induction s as [|a s IH]; simpl; intros p; [discriminate|].
  destruct (Str.upto_last c s) as [p'|] eqn:Hs.
  - intros [= <-]. destruct (IH p' eq_refl) as (body & post & -> & -> & Hpost).
    exists (String a body), post. auto.
  - destruct (Ascii.eqb_spec a c) as [->|Hne]; [|discriminate].
    intros [= <-]. exists EmptyString, s. repeat split.
    clear IH. induction s as [|b s IH]; simpl in *; [reflexivity|].
    destruct (Str.upto_last c s); [discriminate|].
    destruct (Ascii.eqb b c); [discriminate|]. simpl. auto.
Qed.

(** The match is the span from the first opening brace to the last closing
    one. *)
Lemma match_braces_span (pre body post : string) :
  Str.lacks "{" pre = true -> Str.lacks "}" post = true ->
  Str.match_braces (pre ++ String "{" (body ++ String "}" post))%string
  = Some (String "{" (body ++ String "}" ""))%string.
Proof.
  intros Hpre Hpost. unfold Str.match_braces.
  rewrite from_first_app by assumption.
  change (String "{" (body ++ String "}" post))%string
    with (String "{" body ++ String "}" post)%string.
  rewrite upto_last_app by assumption. reflexivity.
Qed.

(** ** Facts about the lexer *)

Import JSON.

Lemma is_ws_not_brace (c : ascii) :
  is_ws c = true -> Ascii.eqb c "{" = false /\ Ascii.eqb c "}" = false.
Proof.
  unfold is_ws. intros H.
  destruct (Ascii.eqb_spec c "{") as [->|]; [discriminate|].
  destruct (Ascii.eqb_spec c "}") as [->|]; [discriminate|]. auto.
Qed.

Lemma all_ws_lacks (s : string) :
  all_ws s = true -> Str.lacks "{" s = true /\ Str.lacks "}" s = true.
Proof.
  induction s as [|c s IH]; simpl; [auto|]. intros H.
  apply andb_true_iff in H as [Hc Hs].
  destruct (is_ws_not_brace c Hc) as [-> ->]. simpl. auto.
Qed.

Lemma word_token_not_punct (w : string) (t : token) :
  word_token w = Some t -> t <> LBrace /\ t <> RBrace.
Proof.
  unfold word_token.
  destruct (String.eqb w "true"); [intros [= <-]; split; discriminate|].
  destruct (String.eqb w "false"); [intros [= <-]; split; discriminate|].
  destruct (String.eqb w "null"); [intros [= <-]; split; discriminate|].
  destruct (number_of_literal w); simpl; intros [= <-]; split; discriminate.
Qed.

Lemma step_idle_brace (c : ascii) (out : list token) (st : lex_state) :
  step_idle c = Some (out, st) ->
  (out = [] /\ (st = Idle /\ is_ws c = true \/ st <> Idle))
  \/ (exists t, out = [t] /\ st = Idle
                /\ (t = LBrace -> c = "{"%char) /\ (t = RBrace -> c = "}"%char)).
Proof.
  unfold step_idle. intros H.
  repeat match type of H with
  | (if ?b then _ else _) = _ => destruct b eqn:?
  end; simplify_eq;
    try (left; split; [reflexivity|]; first [left; by auto | right; discriminate]);
    right; eexists; (split; [reflexivity|]); (split; [reflexivity|]);
    split; intros; try discriminate;
    match goal with E : Ascii.eqb _ _ = true |- _ => apply Ascii.eqb_eq in E; exact E end.
Qed.

Lemma code_unit_not_Idle (acc : string) (hi : option N) (u : N) :
  code_unit acc hi u <> Idle.
Proof. unfold code_unit. repeat case_match; discriminate. Qed.

(** What one character can complete, by the state it is read in. *)
Lemma step_cases (st st' : lex_state) (c : ascii) (out : list token) :
  step st c = Some (out, st') ->
  match st with
  | Idle => step_idle c = Some (out, st')
  | Word w =>
      (out = [] /\ st' <> Idle)
      \/ (exists t out', out = t :: out' /\ word_token w = Some t
                         /\ step_idle c = Some (out', st'))
  | _ => (out = [] /\ st' <> Idle) \/ (exists s, out = [TString s] /\ st' = Idle)
  end.
Proof.
  destruct st as [|w|acc hi|acc hi|acc hi n u]; simpl; intros H.
  - exact H.
  - destruct (is_word c); [simplify_eq; left; split; [reflexivity|discriminate]|].
    destruct (word_token w) as [t|]; [|discriminate].
    destruct (step_idle c) as [[out' st'']|]; [|discriminate].
    simplify_eq. right. eauto.
  - repeat case_match; simplify_eq;
      first [right; eexists; split; reflexivity | left; split; [reflexivity|discriminate]].
  - repeat case_match; simplify_eq; left; split; try reflexivity; discriminate.
  - destruct (hex_value c); simplify_eq. left. split; [reflexivity|].
    destruct (Nat.eqb n 3); [apply code_unit_not_Idle | discriminate].
Qed.

Lemma step_nil_Idle (st : lex_state) (c : ascii) :
  step st c = Some ([], Idle) -> st = Idle /\ is_ws c = true.
Proof.
  intros H. apply step_cases in H. destruct st.
  - apply step_idle_brace in H as [[_ [[_ H]|H]]|(t & H & _)]; [auto|congruence|discriminate].
  - destruct H as [[_ H]|(t & out' & H & _)]; [congruence|discriminate].
  - destruct H as [[_ H]|(s & H & _)]; [congruence|discriminate].
  - destruct H as [[_ H]|(s & H & _)]; [congruence|discriminate].
  - destruct H as [[_ H]|(s & H & _)]; [congruence|discriminate].
Qed.

Lemma step_idle_last_RBrace (c : ascii) (out : list token) (st' : lex_state) :
  step_idle c = Some (out, st') -> last out = Some RBrace ->
  c = "}"%char /\ st' = Idle.
Proof.
  intros H Hl. apply step_idle_brace in H as [[-> _]|(t & -> & -> & _ & H)].
  - discriminate.
  - simpl in Hl. injection Hl as ->. auto.
Qed.

Lemma step_last_RBrace (st st' : lex_state) (c : ascii) (out : list token) :
  step st c = Some (out, st') -> last out = Some RBrace ->
  c = "}"%char /\ st' = Idle.
Proof.
  intros H Hl. apply step_cases in H. destruct st.
  - eauto using step_idle_last_RBrace.
  - destruct H as [[-> _]|(t & out' & -> & Ht & H)]; [discriminate|].
    destruct out' as [|t' out'].
    + simpl in Hl. injection Hl as ->.
      apply word_token_not_punct in Ht as [_ Ht]. congruence.
    + apply (step_idle_last_RBrace c (t' :: out')); assumption.
  - destruct H as [[-> _]|(s & -> & _)]; discriminate.
  - destruct H as [[-> _]|(s & -> & _)]; discriminate.
  - destruct H as [[-> _]|(s & -> & _)]; discriminate.
Qed.

Lemma step_head_LBrace (st st' : lex_state) (c : ascii) (out : list token) :
  step st c = Some (LBrace :: out, st') ->
  st = Idle /\ c = "{"%char /\ out = [] /\ st' = Idle.
Proof.
  intros H. apply step_cases in H. destruct st.
  - apply step_idle_brace in H as [[H _]|(t & H & -> & Hc & _)]; [discriminate|].
    injection H as <- ->. auto.
  - destruct H as [[H _]|(t & out' & H & Ht & _)]; [discriminate|].
    injection H as <- <-. apply word_token_not_punct in Ht as [Ht _]. congruence.
  - destruct H as [[H _]|(s & H & _)]; discriminate.
  - destruct H as [[H _]|(s & H & _)]; discriminate.
  - destruct H as [[H _]|(s & H & _)]; discriminate.
Qed.

Lemma lex_cons (st : lex_state) (c : ascii) (s : string) (toks : list token) :
  lex st (String c s) = Some toks ->
  exists out st' toks', step st c = Some (out, st') /\ lex st' s = Some toks'
                        /\ toks = out ++ toks'.
Proof.
  cbn [lex]. destruct (step st c) as [[out st']|] eqn:Hstep; [|discriminate].
  destruct (lex st' s) as [toks'|] eqn:Hlex; cbn [option_map]; [|discriminate].
  intros [= <-]. exists out, st', toks'. auto.
Qed.

(** Without a token, the text is white space. *)
Lemma lex_nil (s : string) (st : lex_state) :
  lex st s = Some [] -> st = Idle /\ all_ws s = true.
Proof.
  revert st. induction s as [|c s IH]; intros st H.
  - destruct st; simpl in H; try discriminate; [auto|].
    destruct (word_token w); discriminate.
  - apply lex_cons in H as (out & st' & toks' & Hstep & Hlex & Happ).
    symmetry in Happ. apply app_eq_nil in Happ as [-> ->].
    apply IH in Hlex as [-> Hws].
    apply step_nil_Idle in Hstep as [-> Hc]. simpl. rewrite Hc. auto.
Qed.

(** White space before the text yields no token. *)
Lemma lex_ws_app (ws s : string) :
  all_ws ws = true -> lex Idle (ws ++ s)%string = lex Idle s.
Proof.
  induction ws as [|c ws IH]; simpl; [reflexivity|]. intros H.
  apply andb_true_iff in H as [Hc Hws].
  unfold step_idle. rewrite Hc. rewrite IH by assumption.
  destruct (lex Idle s); reflexivity.
Qed.

(** A text whose first token is an opening brace starts, behind white
    space, with that brace. *)
Lemma lex_head_LBrace (s : string) (st : lex_state) (toks : list token) :
  lex st s = Some (LBrace :: toks) ->
  st = Idle
  /\ exists ws rest, s = (ws ++ String "{" rest)%string /\ all_ws ws = true.
Proof.
  revert st. induction s as [|c s IH]; intros st H.
  - destruct st; simpl in H; try discriminate.
    destruct (word_token w) as [t|] eqn:Ht; simpl in H; [|discriminate].
    injection H as -> _. apply word_token_not_punct in Ht as [Ht _]. congruence.
  - apply lex_cons in H as (out & st' & toks' & Hstep & Hlex & Happ).
    destruct out as [|t out]; simpl in Happ.
    + subst toks'. apply IH in Hlex as [-> (ws & rest & -> & Hws)].
      apply step_nil_Idle in Hstep as [-> Hc]. split; [reflexivity|].
      exists (String c ws), rest. simpl. rewrite Hc. auto.
    + injection Happ as <- ->.
      apply step_head_LBrace in Hstep as (-> & -> & -> & ->).
      split; [reflexivity|]. exists EmptyString, s. auto.
Qed.

(** A text whose last token is a closing brace ends, before white space,
    with that brace, and the white space adds nothing. *)
Lemma lex_last_RBrace (s : string) (st : lex_state) (toks : list token) :
  lex st s = Some toks -> last toks = Some RBrace ->
  exists body ws, s = (body ++ String "}" ws)%string /\ all_ws ws = true
                  /\ lex st (body ++ String "}" "")%string = Some toks.
Proof.
  revert st toks. induction s as [|c s IH]; intros st toks H Hl.
  - destruct st; simpl in H; try discriminate.
    + injection H as <-. discriminate.
    + destruct (word_token w) as [t|] eqn:Ht; simpl in H; [|discriminate].
      injection H as <-. simpl in Hl. injection Hl as ->.
      apply word_token_not_punct in Ht as [_ Ht]. congruence.
  - apply lex_cons in H as (out & st' & toks' & Hstep & Hlex & ->).
    destruct toks' as [|t toks'].
    + rewrite app_nil_r in Hl. apply lex_nil in Hlex as [-> Hws].
      destruct (step_last_RBrace _ _ _ _ Hstep Hl) as [-> _].
      exists EmptyString, s. simpl. simpl in Hstep. rewrite Hstep. simpl.
      rewrite app_nil_r. auto.
    + rewrite last_app in Hl. simpl in Hl.
      destruct (IH st' (t :: toks') Hlex) as (body & ws & -> & Hws & Hbody).
      { destruct (last (t :: toks')) eqn:E; [exact Hl|].
        apply last_None in E. discriminate. }
      exists (String c body), ws. simpl. rewrite Hstep, Hbody. auto.
Qed.

(** ** Facts about the grammar *)

Lemma deliver_cases (v : value) (stack : list frame) (st' : pstate) (stack' : list frame) :
  deliver v stack = Some (st', stack') ->
  (stack = [] /\ st' = PDone v /\ stack' = [])
  \/ (stack <> [] /\ stack' <> [] /\ is_done st' = false
      /\ root_is_object stack' = root_is_object stack).
Proof.
  destruct stack as [|[acc|m|m k] rest]; simpl; intros H; try discriminate;
    injection H as <- <-.
  - left. auto.
  - right. repeat split; try discriminate; destruct rest; reflexivity.
  - right. repeat split; try discriminate; destruct rest; reflexivity.
Qed.

(** One token inside a container: the container stays open, or the token
    closes the outermost container and completes the value of the text. *)
Lemma pstep_cases (st st' : pstate) (stack stack' : list frame) (t : token) :
  pstep st stack t = Some (st', stack') -> stack <> [] -> is_done st = false ->
  (stack' <> [] /\ is_done st' = false /\ root_is_object stack' = root_is_object stack)
  \/ (stack' = [] /\ exists v, st' = PDone v
       /\ forall o, v = VObj o -> t = RBrace /\ root_is_object stack = true).
Proof.
  intros H Hne Hst.
  assert (Hdeliver : forall v rest, deliver v rest = Some (st', stack') ->
            rest <> [] -> root_is_object rest = root_is_object stack ->
            stack' <> [] /\ is_done st' = false
            /\ root_is_object stack' = root_is_object stack).
  { intros v rest Hd Hrest Hroot.
    apply deliver_cases in Hd as [[-> _]|(_ & ? & ? & ?)]; [congruence|].
    repeat split; congruence. }
  assert (Hclose : forall v rest f, deliver v rest = Some (st', stack') ->
            stack = f :: rest ->
            (forall o, v = VObj o -> t = RBrace /\ frame_is_object f = true) ->
            (stack' <> [] /\ is_done st' = false
             /\ root_is_object stack' = root_is_object stack)
            \/ (stack' = [] /\ exists v, st' = PDone v
                 /\ forall o, v = VObj o -> t = RBrace /\ root_is_object stack = true)).
  { intros v rest f Hd -> Hv.
    destruct (deliver_cases _ _ _ _ Hd) as [(-> & -> & ->)|(Hrest & _)].
    - right. split; [reflexivity|]. exists v. split; [reflexivity|]. exact Hv.
    - left. apply (Hdeliver v rest Hd Hrest). destruct rest; [congruence|reflexivity]. }
  destruct stack as [|f rest]; [congruence|].
  destruct st; try discriminate; destruct t; simpl in H; try discriminate;
    try (left; eapply Hdeliver; [exact H|discriminate|reflexivity]);
    try (injection H as <- <-; left; repeat split; try discriminate; reflexivity);
    try (destruct f; try discriminate; simpl in H;
         first
           [ injection H as <- <-; left; repeat split; try discriminate;
             destruct rest; reflexivity
           | eapply Hclose; [exact H|reflexivity|];
             intros o' Ho'; first [discriminate | split; reflexivity] ]).
Qed.

Lemma run_done (v : value) (stack : list frame) (ts : list token) (r : value) :
  run (PDone v) stack ts = Some r -> ts = [] /\ r = v.
Proof. destruct ts; simpl; [intros [= <-]; auto | discriminate]. Qed.

(** A text whose value is an object ends with a closing brace, and its
    outermost container is an object. *)
Lemma run_object (ts : list token) (st : pstate) (stack : list frame)
  (o : gmap string value) :
  stack <> [] -> is_done st = false -> run st stack ts = Some (VObj o) ->
  last ts = Some RBrace /\ root_is_object stack = true.
Proof.
  revert st stack. induction ts as [|t ts IH]; intros st stack Hne Hst H.
  - destruct st; simpl in *; discriminate.
  - simpl in H. destruct (pstep st stack t) as [[st' stack']|] eqn:Hstep; [|discriminate].
    destruct (pstep_cases _ _ _ _ _ Hstep Hne Hst)
      as [(Hne' & Hst' & Hroot)|(-> & v & -> & Hv)].
    + destruct (IH _ _ Hne' Hst' H) as [Hl Hr]. split; [|congruence].
      destruct ts; [discriminate|exact Hl].
    + apply run_done in H as [-> <-]. destruct (Hv o eq_refl) as [-> Hr]. auto.
Qed.

(** The tokens of an object text: an opening brace first, a closing brace
    last. *)
Lemma run_object_tokens (ts : list token) (o : gmap string value) :
  run PValue [] ts = Some (VObj o) ->
  (exists ts', ts = LBrace :: ts') /\ last ts = Some RBrace.
Proof.
  destruct ts as [|t ts]; [discriminate|]. simpl.
  destruct (begin_value t []) as [[st' stack']|] eqn:Hb; [|discriminate].
  intros H.
  destruct t; simpl in Hb; simplify_eq;
    try (apply run_done in H as [_ H]; discriminate).
  - apply run_object in H as [Hl _]; [|discriminate|reflexivity].
    split; [eauto|]. destruct ts; [discriminate|exact Hl].
  - apply run_object in H as [_ Hr]; [|discriminate|reflexivity]. discriminate.
Qed.

(** An object text is an opening brace, a body and a closing brace between
    white space, and the white space can be dropped. *)
Lemma parse_object_text (t : string) (o : gmap string value) :
  JSON.parse t = Some (VObj o) ->
  exists ws1 body ws2,
    t = (ws1 ++ String "{" (body ++ String "}" ws2))%string
    /\ all_ws ws1 = true /\ all_ws ws2 = true
    /\ JSON.parse (String "{" (body ++ String "}" "")) = Some (VObj o).
Proof.
  unfold JSON.parse. destruct (lex Idle t) as [ts|] eqn:Hlex; [|discriminate].
  intros Hrun. destruct (run_object_tokens _ _ Hrun) as [[ts' ->] Hlast].
  destruct (lex_head_LBrace _ _ _ Hlex) as [_ (ws1 & rest & -> & Hws1)].
  rewrite lex_ws_app in Hlex by assumption.
  destruct (lex_last_RBrace _ _ _ Hlex Hlast) as (body0 & ws2 & Heq & Hws2 & Hcore).
  destruct body0 as [|c body]; simpl in Heq; [discriminate|].
  injection Heq as <- ->.
  exists ws1, body, ws2. repeat split; try assumption.
  simpl in Hcore. simpl. rewrite Hcore. exact Hrun.
Qed.

(** Extraction sees through any wrapping that has no opening brace before
    the object text and no closing brace behind it. *)
Lemma extract_wrapped (pre post t : string) (o : gmap string value) :
  Str.lacks "{" pre = true -> Str.lacks "}" post = true ->
  JSON.parse t = Some (VObj o) ->
  extract (pre ++ t ++ post)%string = Some (VObj o).
Proof.
  intros Hpre Hpost Ht.
  destruct (parse_object_text _ _ Ht) as (ws1 & body & ws2 & -> & Hws1 & Hws2 & Hcore).
  apply all_ws_lacks in Hws1 as [Hws1 _]. apply all_ws_lacks in Hws2 as [_ Hws2].
  replace (pre ++ (ws1 ++ String "{" (body ++ String "}" ws2)) ++ post)%string
    with ((pre ++ ws1) ++ String "{" (body ++ String "}" (ws2 ++ post)))%string.
  - unfold extract. rewrite match_braces_span; [exact Hcore| |].
    + rewrite lacks_app, Hpre, Hws1. reflexivity.
    + rewrite lacks_app, Hws2, Hpost. reflexivity.
  - rewrite !append_assoc. simpl. rewrite !append_assoc. reflexivity.
Qed.

(** ** Facts about binary64 addition *)

Lemma shr_1_nonneg (mrs : shr_record) : (0 <= shr_m mrs -> 0 <= shr_m (shr_1 mrs))%Z.
Proof. destruct mrs as [[|[p|p|]|p] r s]; simpl; lia. Qed.

Lemma iter_pos_nonneg (p : positive) (mrs : shr_record) :
  (0 <= shr_m mrs -> 0 <= shr_m (SpecFloat.iter_pos shr_1 p mrs))%Z.
Proof.
  revert mrs. induction p as [p IH|p IH|]; intros mrs H; simpl.
  - apply IH, IH, shr_1_nonneg, H.
  - apply IH, IH, H.
  - apply shr_1_nonneg, H.
Qed.

Lemma shr_fexp_nonneg (m e : Z) (l : location) :
  (0 <= m -> 0 <= shr_m (fst (shr_fexp prec emax m e l)))%Z.
Proof.
  intros H. unfold shr_fexp, shr.
  assert (H0 : (0 <= shr_m (shr_record_of_loc m l))%Z) by (destruct l as [|[]]; exact H).
  destruct (_ - e)%Z; simpl; try exact H0. apply iter_pos_nonneg, H0.
Qed.

Lemma round_nearest_even_nonneg (m : Z) (l : location) :
  (0 <= m -> 0 <= round_nearest_even m l)%Z.
Proof. destruct l as [|[]]; simpl; try lia. destruct (Z.even m); lia. Qed.

Lemma binary_round_aux_nonneg (m e : Z) (l : location) :
  (0 <= m)%Z -> sf_nonneg (binary_round_aux prec emax false m e l) = true.
Proof.
  intros H. unfold binary_round_aux.
  pose proof (shr_fexp_nonneg m e l H) as H1.
  destruct (shr_fexp prec emax m e l) as [mrs' e']. simpl in H1.
  pose proof (shr_fexp_nonneg _ e' loc_Exact
                (round_nearest_even_nonneg _ (loc_of_shr_record mrs') H1)) as H2.
  destruct (shr_fexp prec emax _ e' loc_Exact) as [mrs'' e'']. simpl in H2.
  destruct (shr_m mrs''); [reflexivity| |lia].
  destruct (_ <=? _)%Z; reflexivity.
Qed.

Lemma SFadd_nonneg (x y : spec_float) :
  sf_nonneg x = true -> sf_nonneg y = true -> sf_nonneg (SF64add x y) = true.
Proof.
  destruct x as [sx|[|]| |[|] mx ex]; try discriminate;
    destruct y as [sy|[|]| |[|] my ey]; try discriminate; intros _ _;
    try reflexivity.
  - destruct sx, sy; reflexivity.
  - unfold SF64add, SFadd, cond_Zopp, binary_normalize.
    set (a := fst (shl_align mx ex (Z.min ex ey))).
    set (b := fst (shl_align my ey (Z.min ex ey))).
    change (Z.pos a + Z.pos b)%Z with (Z.pos (a + b)). cbv beta iota.
    unfold binary_round.
    destruct (shl_align (a + b) _ _) as [mz ez]. apply binary_round_aux_nonneg. lia.
Qed.

Lemma nonneg_spec (x : float) : (0 <=? x)%float = true <-> sf_nonneg (Prim2SF x) = true.
Proof.
  rewrite leb_spec. change (Prim2SF 0) with (S754_zero false).
  unfold SFleb, SFcompare. destruct (Prim2SF x) as [s|[|]| |[|] m e]; simpl; split; congruence.
Qed.

(** The sum of two numbers that are not negative is not negative. *)
Lemma add_nonneg (x y : float) :
  (0 <=? x)%float = true -> (0 <=? y)%float = true -> (0 <=? x + y)%float = true.
Proof.
  rewrite !nonneg_spec, add_spec. apply SFadd_nonneg.
Qed.

Lemma sumOfEstimatedValues_nonneg (items : list value) :
  Forall (fun item => (0 <=? estimatedValueOrZero item)%float = true) items ->
  (0 <=? sumOfEstimatedValues items)%float = true.
Proof.
  intros H.
  assert (Hfold : forall sum, (0 <=? sum)%float = true ->
            (0 <=? fold_left (fun s item => s + estimatedValueOrZero item) items sum)%float
            = true).
  { induction H as [|item items Hitem _ IH]; intros sum Hsum; simpl; [exact Hsum|].
    apply IH, add_nonneg; assumption. }
  apply Hfold. reflexivity.
Qed.

(** ** Facts about property access *)

Lemma get_set_eq (v v' x : value) (p : string) :
  set v p x = Ok v' -> get v' p = Ok x.
Proof.
  destruct v; simpl; intros H; simplify_eq; simpl; rewrite lookup_insert_eq; reflexivity.
Qed.

Lemma get_set_ne (v v' x : value) (p q : string) :
  set v p x = Ok v' -> p <> q -> get v' q = get v q.
Proof.
  destruct v; simpl; intros H Hne; simplify_eq; simpl;
    rewrite lookup_insert_ne by assumption; reflexivity.
Qed.

(** A value that takes a property is an object or an array, and reading
    from it never throws. *)
Lemma set_Ok_get (v v' x : value) (p q : string) :
  set v p x = Ok v' -> exists y, get v q = Ok y.
Proof. destruct v; simpl; intros H; simplify_eq; eauto. Qed.

(** ** Facts about normalisation *)

(** What a successful normalisation read and what it returns. *)
Lemma normalize_Ok (analysis result : value) :
  normalize analysis = Ok result ->
  exists items total waste,
    get analysis "items" = Ok items
    /\ get analysis "totalEstimatedValue" = Ok total
    /\ get analysis "estimatedWaste" = Ok waste
    /\ get result "items" = Ok (if truthy items && isArray items then items else VArr [] ∅)
    /\ (typeof total = "number"%string -> get result "totalEstimatedValue" = Ok total)
    /\ (typeof total <> "number"%string ->
        exists elems props sum,
          get result "items" = Ok (VArr elems props)
          /\ reduce elems (VNum 0) = Ok sum
          /\ get result "totalEstimatedValue" = Ok sum)
    /\ get result "estimatedWaste" = Ok (if truthy waste then waste else defaultEstimatedWaste)
    /\ (forall q : string,
          q <> "items"%string -> q <> "totalEstimatedValue"%string ->
          q <> "estimatedWaste"%string -> get result q = get analysis q).
Proof.
  unfold normalize. intros H.
  destruct (get analysis "items") as [items|] eqn:Hitems; [|discriminate].
  cbn [result_bind] in H.
  destruct (if negb (truthy items) || negb (isArray items)
            then set analysis "items" (VArr [] ∅) else Ok analysis)
    as [a1|] eqn:H1; [|discriminate].
  cbn [result_bind] in H.
  assert (Hi1 : get a1 "items"
                = Ok (if truthy items && isArray items then items else VArr [] ∅)).
  { destruct (truthy items), (isArray items); simpl in H1 |- *;
      first [injection H1 as <-; exact Hitems | eapply get_set_eq; exact H1]. }
  assert (Ho1 : forall q : string, q <> "items"%string -> get a1 q = get analysis q).
  { intros q Hq. destruct (negb (truthy items) || negb (isArray items)).
    - eapply get_set_ne; [exact H1|congruence].
    - injection H1 as <-. reflexivity. }
  destruct (get a1 "totalEstimatedValue") as [total|] eqn:Htotal; [|discriminate].
  cbn [result_bind] in H.
  destruct (if negb (String.eqb (typeof total) "number") then _ else Ok a1)
    as [a2|] eqn:H2 in H; [|discriminate].
  cbn [result_bind] in H.
  assert (Hi2 : get a2 "items" = get a1 "items"
                /\ (forall q : string, q <> "totalEstimatedValue"%string ->
                      get a2 q = get a1 q)
                /\ (typeof total = "number"%string -> get a2 "totalEstimatedValue" = Ok total)
                /\ (typeof total <> "number"%string ->
                    exists elems props sum,
                      get a1 "items" = Ok (VArr elems props)
                      /\ reduce elems (VNum 0) = Ok sum
                      /\ get a2 "totalEstimatedValue" = Ok sum)).
  { destruct (String.eqb_spec (typeof total) "number") as [Hnum|Hnum]; simpl in H2.
    - injection H2 as <-. repeat split; auto. intros; congruence.
    - rewrite Hi1 in H2. cbn [result_bind] in H2.
      destruct (if truthy items && isArray items then items else VArr [] ∅)
        as [| | | | |elems props|] eqn:Harr in H2; try discriminate.
      destruct (reduce elems (VNum 0)) as [sum|] eqn:Hsum; [|discriminate].
      cbn [result_bind] in H2.
      split; [eapply get_set_ne; [exact H2|discriminate]|].
      split; [intros q Hq; eapply get_set_ne; [exact H2|congruence]|].
      split; [intros; congruence|]. intros _.
      exists elems, props, sum. rewrite Hi1, Harr.
      split; [reflexivity|]. split; [exact Hsum|]. eapply get_set_eq; exact H2. }
  destruct Hi2 as (Hi2 & Ho2 & Hnum2 & Hsum2).
  destruct (get a2 "estimatedWaste") as [waste|] eqn:Hwaste; [|discriminate].
  cbn [result_bind] in H.
  assert (Hw0 : get analysis "estimatedWaste" = Ok waste).
  { rewrite <- Ho1, <- Ho2 by discriminate. exact Hwaste. }
  assert (Hres : get result "estimatedWaste"
                 = Ok (if truthy waste then waste else defaultEstimatedWaste)
                 /\ forall q : string, q <> "estimatedWaste"%string ->
                      get result q = get a2 q).
  { destruct (truthy waste); simpl in H.
    - injection H as <-. auto.
    - split; [eapply get_set_eq; exact H|].
      intros q Hq. eapply get_set_ne; [exact H|congruence]. }
  destruct Hres as [Hrw Hro].
  exists items, total, waste.
  split; [reflexivity|].
  split; [rewrite <- Ho1 by discriminate; exact Htotal|].
  split; [exact Hw0|].
  split; [rewrite Hro, Hi2 by discriminate; exact Hi1|].
  split; [intros Hn; rewrite Hro by discriminate; auto|].
  split.
  { intros Hn. destruct (Hsum2 Hn) as (elems & props & sum & He & Hs & Ht).
    exists elems, props, sum. rewrite !Hro by discriminate. rewrite Hi2. auto. }
  split; [exact Hrw|].
  intros q Hq1 Hq2 Hq3. rewrite Hro, Ho2, Ho1 by assumption. reflexivity.
Qed.

Lemma typeof_number (v : value) :
  typeof v = "number"%string -> exists x, v = VNum x.
Proof. destruct v; try discriminate. eauto. Qed.

Lemma addEstimatedValue_numeric (sum : float) (item : value) :
  numericOrMissing item ->
  addEstimatedValue (VNum sum) item = Ok (VNum (sum + estimatedValueOrZero item)).
Proof.
  intros (ev & Hget & Hev). unfold addEstimatedValue, estimatedValueOrZero.
  rewrite Hget. cbn [result_bind].
  destruct Hev as [Hnum|Hfalsy].
  - apply typeof_number in Hnum as [x ->]. cbv beta iota.
    destruct (truthy (VNum x)); reflexivity.
  - rewrite Hfalsy. destruct ev; try reflexivity. cbv beta iota.
    rewrite Hfalsy. reflexivity.
Qed.

(** Over items whose estimated values are numbers or missing, the
    reduction is the binary64 sum. *)
Lemma reduce_numeric (items : list value) (sum : float) :
  Forall numericOrMissing items ->
  reduce items (VNum sum)
  = Ok (VNum (fold_left (fun s item => s + estimatedValueOrZero item)%float items sum)).
Proof.
  intros H. revert sum. induction H as [|item items Hitem _ IH]; intros sum; simpl.
  - reflexivity.
  - rewrite addEstimatedValue_numeric by assumption. cbn [result_bind]. apply IH.
Qed.

(** Normalising a primitive throws at the first access to [items]. *)
Lemma normalize_primitive (analysis : value) :
  is_primitive analysis = true ->
  normalize analysis
  = Throw (TypeError match analysis with
                     | VUndefined | VNull => ReadOfNullish analysis "items"
                     | _ => CreateOnPrimitive "items" analysis
                     end).
Proof. destruct analysis; try discriminate; reflexivity. Qed.

(** ** Facts about the whole call *)

Lemma parseResponse_snd (text : string) :
  snd (parseResponse text)
  = match extract text with
    | Some analysis => Ok analysis
    | None => Throw (Error msg_parse_failed)
    end.
Proof. unfold parseResponse. destruct (extract text); reflexivity. Qed.

Lemma parseResponse_fst (text : string) :
  fst (parseResponse text)
  = match extract text with
    | Some _ => []
    | None => [ConsoleError [LStr "Error parsing JSON response:"; LStr text]]
    end.
Proof. unfold parseResponse. destruct (extract text); reflexivity. Qed.

Lemma analyzeFoodWaste_try_snd (w : world) (imagePath : string) :
  snd (analyzeFoodWaste_try w imagePath)
  = match snd (content w imagePath) with
    | Ok text =>
        match extract text with
        | Some analysis => normalize analysis
        | None => Throw (Error msg_parse_failed)
        end
    | Throw e => Throw e
    end.
Proof.
  unfold analyzeFoodWaste_try. rewrite snd_bind.
  destruct (snd (content w imagePath)) as [text|e]; [|reflexivity].
  rewrite snd_bind, parseResponse_snd. destruct (extract text); reflexivity.
Qed.

Lemma analyzeFoodWaste_snd (w : world) (imagePath : string) :
  snd (analyzeFoodWaste w imagePath)
  = match snd (analyzeFoodWaste_try w imagePath) with
    | Ok result => Ok result
    | Throw error => Throw (classify error)
    end.
Proof.
  unfold analyzeFoodWaste. rewrite snd_try_catch.
  destruct (snd (analyzeFoodWaste_try w imagePath)); reflexivity.
Qed.

(** A result is returned exactly when a model replied, the reply parsed
    and the parsed value was normalised. *)
Lemma analyzeFoodWaste_Ok (w : world) (imagePath : string) (result : value) :
  snd (analyzeFoodWaste w imagePath) = Ok result <->
  exists text analysis,
    snd (content w imagePath) = Ok text /\ extract text = Some analysis
    /\ normalize analysis = Ok result.
Proof.
  rewrite analyzeFoodWaste_snd, analyzeFoodWaste_try_snd. split.
  - destruct (snd (content w imagePath)) as [text|]; [|discriminate].
    destruct (extract text) as [analysis|] eqn:He; [|discriminate].
    destruct (normalize analysis) as [r|] eqn:Hn; [|discriminate].
    intros [= <-]. exists text, analysis. auto.
  - intros (text & analysis & -> & -> & ->). reflexivity.
Qed.

(** ** Facts about discovery *)

Lemma availableModels_snd (w : world) (apiKey : string) :
  snd (availableModels w apiKey)
  = Ok match fetch w (catalogUrl apiKey) with
       | FetchResponse true (Ok data) =>
           match get data "models" with
           | Ok models =>
               if truthy models then
                 match mapModels models with
                 | Ok names => names
                 | Throw _ => []
                 end
               else []
           | Throw _ => []
           end
       | _ => []
       end.
Proof.
  unfold availableModels. rewrite snd_try_catch, snd_bind. cbn [emit snd].
  destruct (fetch w (catalogUrl apiKey)) as [e|[|] [data|e]]; try reflexivity.
  rewrite snd_bind. cbn [lift snd]. rewrite snd_bind. cbn [lift snd].
  destruct (get data "models") as [models|]; [|reflexivity].
  destruct (truthy models); [|reflexivity].
  rewrite snd_bind. cbn [lift snd].
  destruct (mapModels models); reflexivity.
Qed.

Lemma availableModels_calls (w : world) (apiKey : string) :
  generationCalls (fst (availableModels w apiKey)) = []
  /\ fetchCalls (fst (availableModels w apiKey)) = [catalogUrl apiKey].
Proof.
  unfold availableModels. rewrite fst_try_catch, fst_bind, snd_bind. cbn [emit fst snd].
  destruct (fetch w (catalogUrl apiKey)) as [e|[|] [data|e]]; try (split; reflexivity).
  rewrite fst_bind, snd_bind. cbn [lift fst snd].
  rewrite fst_bind, snd_bind. cbn [lift fst snd].
  destruct (get data "models") as [models|]; [|split; reflexivity].
  destruct (truthy models); [|split; reflexivity].
  rewrite fst_bind, snd_bind. cbn [lift fst snd].
  destruct (mapModels models); split; reflexivity.
Qed.

Lemma modelNames_snd (available : list string) :
  snd (modelNames available)
  = Ok match available with
       | [] => fallbackModelNames
       | _ :: _ =>
           match List.filter isVisionModel available with
           | [] => List.firstn 3 available
           | visionModels => visionModels
           end
       end.
Proof.
  unfold modelNames. destruct available as [|a available]; [reflexivity|].
  cbn [length Nat.ltb Nat.leb]. rewrite snd_bind. cbn [emit ret snd].
  destruct (List.filter isVisionModel (a :: available)); reflexivity.
Qed.

Lemma modelNames_calls (available : list string) :
  generationCalls (fst (modelNames available)) = []
  /\ fetchCalls (fst (modelNames available)) = [].
Proof.
  unfold modelNames. destruct (Nat.ltb 0 (length available)); split; reflexivity.
Qed.

Lemma candidates_snd (w : world) (apiKey : string) :
  snd (candidates w apiKey)
  = match snd (availableModels w apiKey) with
    | Ok available => snd (modelNames available)
    | Throw e => Throw e
    end.
Proof.
  unfold candidates. rewrite snd_bind.
  destruct (snd (availableModels w apiKey)) as [available|]; [|reflexivity].
  rewrite snd_bind. rewrite modelNames_snd. reflexivity.
Qed.

(** Discovery makes one catalog request and no generation call. *)
Lemma candidates_calls (w : world) (apiKey : string) :
  generationCalls (fst (candidates w apiKey)) = []
  /\ fetchCalls (fst (candidates w apiKey)) = [catalogUrl apiKey].
Proof.
  unfold candidates. rewrite fst_bind, generationCalls_app, fetchCalls_app.
  destruct (availableModels_calls w apiKey) as [-> ->].
  rewrite availableModels_snd. rewrite fst_bind, generationCalls_app, fetchCalls_app.
  match goal with |- context [modelNames ?a] =>
    destruct (modelNames_calls a) as [-> ->]; rewrite (modelNames_snd a)
  end.
  split; reflexivity.
Qed.

Lemma candidates_nonempty (w : world) (apiKey : string) (names : list string) :
  snd (candidates w apiKey) = Ok names -> names <> [].
Proof.
  rewrite candidates_snd, availableModels_snd, modelNames_snd. intros [= <-].
  match goal with |- context [match ?a with [] => fallbackModelNames | _ => _ end] =>
    destruct a as [|x l] eqn:Ha
  end; [discriminate|].
  destruct (List.filter isVisionModel (x :: l)); discriminate.
Qed.

(** ** Facts about the fallback loop *)

(** One turn of the loop. *)
Lemma tryModels_cons (w : world) (b m : string) (k : nat) (name : string)
  (rest : list string) (lastError : option exn) :
  tryModels w b m k (name :: rest) lastError
  = match generateContent w k (generationRequest name b m) with
    | Ok text =>
        ([EGenerate (generationRequest name b m);
          ConsoleLog [LStr ("Successfully used model: " ++ name)%string]],
         Ok (Some text, lastError))
    | Throw err =>
        (EGenerate (generationRequest name b m)
         :: ConsoleLog [LStr ("Model " ++ name ++ " failed, trying next...")%string]
         :: fst (tryModels w b m (S k) rest (Some err)),
         snd (tryModels w b m (S k) rest (Some err)))
    end.
Proof.
  cbn [tryModels]. destruct (generateContent w k (generationRequest name b m)).
  - reflexivity.
  - cbn [bind emit]. destruct (tryModels w b m (S k) rest (Some e)) as [t r].
    destruct r; reflexivity.
Qed.

(** The generation calls are made for the names in list order, one each,
    for a prefix of the list. *)
Lemma tryModels_calls (w : world) (b m : string) (names : list string) (k : nat)
  (lastError : option exn) :
  exists n, n <= length names
    /\ generationCalls (fst (tryModels w b m k names lastError))
       = map (fun name => generationRequest name b m) (List.firstn n names).
Proof.
  revert k lastError. induction names as [|name rest IH]; intros k lastError.
  - exists 0. split; [lia|reflexivity].
  - rewrite tryModels_cons.
    destruct (generateContent w k (generationRequest name b m)) as [text|err].
    + exists 1. split; [simpl; lia|reflexivity].
    + destruct (IH (S k) (Some err)) as (n & Hn & Hcalls).
      exists (S n). split; [simpl; lia|]. cbn [fst]. simpl. rewrite Hcalls. reflexivity.
Qed.

(** The loop stops at the first model that answers. *)
Lemma tryModels_first_success (w : world) (b m : string) (j : nat) :
  forall (names : list string) (k : nat) (lastError : option exn) (name text : string),
    names !! j = Some name ->
    (forall i namei, i < j -> names !! i = Some namei ->
       exists e, generateContent w (k + i) (generationRequest namei b m) = Throw e) ->
    generateContent w (k + j) (generationRequest name b m) = Ok text ->
    (exists lastError', snd (tryModels w b m k names lastError) = Ok (Some text, lastError'))
    /\ generationCalls (fst (tryModels w b m k names lastError))
       = map (fun name => generationRequest name b m) (List.firstn (S j) names).
Proof.
  induction j as [|j IH]; intros names k lastError name text Hj Hfail Hok.
  - destruct names as [|name0 rest]; [discriminate|]. injection Hj as ->.
    rewrite tryModels_cons. rewrite Nat.add_0_r in Hok. rewrite Hok.
    split; [eauto|reflexivity].
  - destruct names as [|name0 rest]; [discriminate|]. cbn in Hj.
    rewrite tryModels_cons.
    destruct (Hfail 0 name0) as [e He]; [lia|reflexivity|].
    rewrite Nat.add_0_r in He. rewrite He. cbn [fst snd].
    destruct (IH rest (S k) (Some e) name text Hj) as [Hs Hc].
    + intros i namei Hi Hl. replace (S k + i) with (k + S i) by lia.
      apply Hfail; [lia|exact Hl].
    + replace (S k + j) with (k + S j) by lia. exact Hok.
    + split; [exact Hs|]. simpl. simpl in Hc. rewrite Hc. reflexivity.
Qed.

(** When no model answers, every name is tried and the error of the last
    attempt is kept. *)
Lemma tryModels_all_fail (w : world) (b m : string) (names : list string) :
  forall (k : nat) (lastError : option exn),
    (forall i namei, names !! i = Some namei ->
       exists e, generateContent w (k + i) (generationRequest namei b m) = Throw e) ->
    exists lastError',
      snd (tryModels w b m k names lastError) = Ok (None, lastError')
      /\ generationCalls (fst (tryModels w b m k names lastError))
         = map (fun name => generationRequest name b m) names
      /\ match last names with
         | Some name =>
             exists e, generateContent w (k + (length names - 1))
                         (generationRequest name b m) = Throw e
                       /\ lastError' = Some e
         | None => lastError' = lastError
         end.
Proof.
  induction names as [|name rest IH]; intros k lastError Hfail.
  - exists lastError. repeat split; reflexivity.
  - rewrite tryModels_cons.
    destruct (Hfail 0 name) as [e He]; [reflexivity|].
    rewrite Nat.add_0_r in He. rewrite He. cbn [fst snd].
    destruct (IH (S k) (Some e)) as (lastError' & Hs & Hc & Hl).
    { intros i namei Hi. replace (S k + i) with (k + S i) by lia.
      apply Hfail. exact Hi. }
    exists lastError'. split; [exact Hs|]. split; [simpl; rewrite Hc; reflexivity|].
    destruct rest as [|name' rest'].
    + cbn in Hl |- *. subst lastError'. exists e. rewrite Nat.add_0_r. auto.
    + change (last (name :: name' :: rest')) with (last (name' :: rest')).
      destruct (last (name' :: rest')) as [lastName|] eqn:Hlast.
      * destruct Hl as (e' & He' & ->). exists e'. split; [|reflexivity].
        replace (k + (length (name :: name' :: rest') - 1))
          with (S k + (length (name' :: rest') - 1)) by (simpl; lia).
        exact He'.
      * apply last_None in Hlast. discriminate.
Qed.

(** ** Facts about the stages before parsing *)

Lemma content_no_key (w : world) (imagePath : string) :
  GEMINI_API_KEY w = None \/ GEMINI_API_KEY w = Some ""%string ->
  content w imagePath = ([], Throw (Error msg_key_not_set)).
Proof. unfold content. intros [-> | ->]; reflexivity. Qed.

(** With a credential and a readable image, the reply is what the loop
    over the candidate names yields. *)
Lemma content_run (w : world) (imagePath apiKey : string) (imageBuffer : Buffer)
  (names : list string) :
  GEMINI_API_KEY w = Some apiKey -> apiKey <> ""%string ->
  readFileSync w imagePath = Ok imageBuffer ->
  snd (candidates w apiKey) = Ok names ->
  snd (content w imagePath)
  = match snd (tryModels w (toString_base64 imageBuffer) (mimeType imagePath) 0 names None) with
    | Ok (Some text, lastError) =>
        if String.eqb text "" then Throw (Error (msg_all_failed lastError names))
        else Ok text
    | Ok (None, lastError) => Throw (Error (msg_all_failed lastError names))
    | Throw e => Throw e
    end
  /\ generationCalls (fst (content w imagePath))
     = generationCalls
         (fst (tryModels w (toString_base64 imageBuffer) (mimeType imagePath) 0 names None))
  /\ fetchCalls (fst (content w imagePath)) = [catalogUrl apiKey].
Proof.
  intros Hkey Hne Hread Hnames. unfold content. rewrite Hkey.
  apply String.eqb_neq in Hne. rewrite Hne.
  rewrite snd_bind, fst_bind. rewrite Hread. cbn [lift fst snd].
  rewrite snd_bind, fst_bind, Hnames.
  rewrite snd_bind, fst_bind.
  rewrite !generationCalls_app, !fetchCalls_app.
  destruct (candidates_calls w apiKey) as [-> ->].
  assert (Hloop : forall l k le, fetchCalls
            (fst (tryModels w (toString_base64 imageBuffer) (mimeType imagePath) k l le))
            = []).
  { induction l as [|x l IH]; intros k le; [reflexivity|].
    rewrite tryModels_cons.
    destruct (generateContent w k _); [reflexivity|]. cbn [fst]. simpl. apply IH. }
  rewrite Hloop.
  destruct (snd (tryModels w (toString_base64 imageBuffer) (mimeType imagePath) 0 names None))
    as [[[text|] lastError]|e]; cbn [fst snd throw ret].
  - destruct (String.eqb text ""); cbn [fst snd throw ret]; simpl;
      rewrite ?app_nil_r; auto.
  - simpl. rewrite ?app_nil_r. auto.
  - simpl. rewrite ?app_nil_r. auto.
Qed.

(** A reply is never empty, and comes out of the loop. *)
Lemma content_Ok (w : world) (imagePath text : string) :
  snd (content w imagePath) = Ok text ->
  text <> ""%string
  /\ exists apiKey imageBuffer names lastError,
       GEMINI_API_KEY w = Some apiKey /\ apiKey <> ""%string
       /\ readFileSync w imagePath = Ok imageBuffer
       /\ snd (candidates w apiKey) = Ok names
       /\ snd (tryModels w (toString_base64 imageBuffer) (mimeType imagePath) 0 names None)
          = Ok (Some text, lastError).
Proof.
  intros H.
  destruct (GEMINI_API_KEY w) as [apiKey|] eqn:Hkey;
    [|rewrite content_no_key in H by auto; discriminate].
  destruct (String.eqb_spec apiKey "") as [->|Hne];
    [rewrite content_no_key in H by auto; discriminate|].
  destruct (readFileSync w imagePath) as [imageBuffer|e] eqn:Hread.
  2:{ unfold content in H. rewrite Hkey in H. apply String.eqb_neq in Hne.
      rewrite Hne, snd_bind, Hread in H. discriminate. }
  destruct (snd (candidates w apiKey)) as [names|e] eqn:Hnames.
  2:{ rewrite candidates_snd, availableModels_snd, modelNames_snd in Hnames. discriminate. }
  destruct (content_run w imagePath apiKey imageBuffer names Hkey Hne Hread Hnames)
    as [Hs _].
  rewrite Hs in H.
  destruct (snd (tryModels w (toString_base64 imageBuffer) (mimeType imagePath) 0 names None))
    as [[[text'|] lastError]|e] eqn:Hloop; try discriminate.
  destruct (String.eqb_spec text' "") as [->|Hne']; [discriminate|].
  injection H as <-. split; [exact Hne'|].
  exists apiKey, imageBuffer, names, lastError. auto.
Qed.

(** Behind the loop no generation call and no catalog request is made. *)
Lemma analyzeFoodWaste_calls (w : world) (imagePath : string) :
  generationCalls (fst (analyzeFoodWaste w imagePath))
  = generationCalls (fst (content w imagePath))
  /\ fetchCalls (fst (analyzeFoodWaste w imagePath))
     = fetchCalls (fst (content w imagePath)).
Proof.
  assert (Htry : generationCalls (fst (analyzeFoodWaste_try w imagePath))
                 = generationCalls (fst (content w imagePath))
                 /\ fetchCalls (fst (analyzeFoodWaste_try w imagePath))
                    = fetchCalls (fst (content w imagePath))).
  { unfold analyzeFoodWaste_try.
    rewrite fst_bind, generationCalls_app, fetchCalls_app.
    destruct (snd (content w imagePath)) as [text|e]; [|rewrite !app_nil_r; auto].
    rewrite fst_bind, generationCalls_app, fetchCalls_app.
    rewrite parseResponse_fst, parseResponse_snd.
    destruct (extract text); cbn [lift fst]; simpl; rewrite !app_nil_r; auto. }
  unfold analyzeFoodWaste. rewrite fst_try_catch, generationCalls_app, fetchCalls_app.
  destruct Htry as [-> ->].
  destruct (snd (analyzeFoodWaste_try w imagePath)); simpl; rewrite !app_nil_r; auto.
Qed.

(** ** Facts about the outer [catch] *)

Lemma classify_generic (error : exn) :
  classified error = false -> classify error = Error (msg_analysis_failed error).
Proof.
  unfold classified, classify. intros H.
  repeat (apply orb_false_iff in H as [H ?]).
  assert (Hset : messageIncludes error "GEMINI_API_KEY is not set" = false).
  { unfold messageIncludes in *. destruct (message error) as [m|]; [|reflexivity].
    destruct (Str.includes m "GEMINI_API_KEY is not set") eqn:Hi; [|reflexivity].
    rewrite (includes_trans m "GEMINI_API_KEY is not set" "API_KEY" Hi eq_refl) in H.
    discriminate. }
  repeat match goal with E : messageIncludes _ _ = false |- _ => rewrite E; clear E end.
  reflexivity.
Qed.

(** The branch that re-throws the missing-credential error is never
    reached: its message matches the first branch. *)
Lemma classify_key_not_set (error : exn) :
  messageIncludes error "GEMINI_API_KEY is not set" = true ->
  classify error = Error msg_invalid_key.
Proof.
  unfold classify, messageIncludes. destruct (message error) as [m|]; [|discriminate].
  intros H. rewrite (includes_trans m _ "API_KEY" H eq_refl). reflexivity.
Qed.

(** ** The properties of the adapter *)

(** C1, as amended.  On every successful return the total is the upstream
    [totalEstimatedValue] unchanged when that is a number, of whatever
    sign; otherwise it is the reduction [sum + (item.estimatedValue || 0)]
    over the returned items from 0, which is the binary64 sum of the items'
    estimated values, missing ones counting as zero, whenever every item's
    value is a number or missing; that sum is not negative when none of
    the values is. *)
Theorem total_estimated_value (w : world) (imagePath : string) (result : value) :
  snd (analyzeFoodWaste w imagePath) = Ok result ->
  exists text analysis upstream,
    snd (content w imagePath) = Ok text /\ extract text = Some analysis
    /\ get analysis "totalEstimatedValue" = Ok upstream
    /\ (typeof upstream = "number"%string ->
        get result "totalEstimatedValue" = Ok upstream)
    /\ (typeof upstream <> "number"%string ->
        exists items props total,
          get result "items" = Ok (VArr items props)
          /\ reduce items (VNum 0) = Ok total
          /\ get result "totalEstimatedValue" = Ok total
          /\ (Forall numericOrMissing items ->
              total = VNum (sumOfEstimatedValues items))
          /\ (Forall (fun item => (0 <=? estimatedValueOrZero item)%float = true) items ->
              (0 <=? sumOfEstimatedValues items)%float = true)).
Proof.
  intros H. apply analyzeFoodWaste_Ok in H as (text & analysis & Htext & Hextract & Hnorm).
  apply normalize_Ok in Hnorm
    as (items0 & upstream & waste & _ & Hup & _ & _ & Hnum & Hother & _).
  exists text, analysis, upstream. repeat (split; [assumption|]).
  intros Hn. destruct (Hother Hn) as (items & props & total & Hitems & Hred & Htotal).
  exists items, props, total. repeat (split; [assumption|]).
  split; [|apply sumOfEstimatedValues_nonneg].
  intros Hall. rewrite reduce_numeric in Hred by assumption.
  injection Hred as <-. reflexivity.
Qed.

(** C2, as amended.  Every returned value has an array under [items] (the
    upstream array, or the empty array when upstream gave none) and a
    truthy [estimatedWaste], the placeholder object whenever upstream gave
    none; [notes] is whatever upstream gave, absent when upstream omitted
    it. *)
Theorem canonical_record (w : world) (imagePath : string) (result : value) :
  snd (analyzeFoodWaste w imagePath) = Ok result ->
  exists text analysis,
    snd (content w imagePath) = Ok text /\ extract text = Some analysis
    /\ (exists elems props, get result "items" = Ok (VArr elems props))
    /\ (forall upstream, get analysis "items" = Ok upstream ->
          get result "items" = Ok (if isArray upstream then upstream else VArr [] ∅))
    /\ (exists waste, get result "estimatedWaste" = Ok waste /\ truthy waste = true)
    /\ (forall upstream, get analysis "estimatedWaste" = Ok upstream ->
          truthy upstream = false ->
          get result "estimatedWaste" = Ok defaultEstimatedWaste)
    /\ get result "notes" = get analysis "notes".
Proof.
  intros H. apply analyzeFoodWaste_Ok in H as (text & analysis & Htext & Hextract & Hnorm).
  apply normalize_Ok in Hnorm
    as (items & total & waste & Hitems & _ & Hwaste & Hri & _ & _ & Hrw & Hother).
  exists text, analysis. repeat (split; [assumption|]).
  assert (Harr : (if truthy items && isArray items then items else VArr [] ∅)
                 = if isArray items then items else VArr [] ∅).
  { destruct items; cbn [isArray]; rewrite ?andb_false_r; reflexivity. }
  rewrite Harr in Hri.
  split; [destruct items; simpl in Hri; eauto|].
  split; [intros upstream Hup; rewrite Hitems in Hup; injection Hup as <-; exact Hri|].
  split.
  { destruct (truthy waste) eqn:Ht; eauto. }
  split.
  { intros upstream Hup Hfalsy. rewrite Hwaste in Hup. injection Hup as <-.
    rewrite Hfalsy in Hrw. exact Hrw. }
  apply Hother; discriminate.
Qed.

(** C3: what the call does without a credential.  It makes no network
    call, but the error it throws is the invalid-key error of the first
    branch of the outer [catch], not the missing-credential error. *)
Theorem missing_credential (w : world) (imagePath : string) :
  GEMINI_API_KEY w = None \/ GEMINI_API_KEY w = Some ""%string ->
  analyzeFoodWaste w imagePath
  = ([ConsoleError [LStr "Error in AI vision analysis:"; LExn (Error msg_key_not_set)]],
     Throw (Error msg_invalid_key))
  /\ fetchCalls (fst (analyzeFoodWaste w imagePath)) = []
  /\ generationCalls (fst (analyzeFoodWaste w imagePath)) = []
  /\ Error msg_invalid_key <> Error msg_key_not_set.
Proof.
  intros Hkey.
  assert (H : analyzeFoodWaste w imagePath
              = ([ConsoleError [LStr "Error in AI vision analysis:";
                                LExn (Error msg_key_not_set)]],
                 Throw (Error msg_invalid_key))).
  { unfold analyzeFoodWaste, analyzeFoodWaste_try.
    rewrite (content_no_key w imagePath Hkey). reflexivity. }
  rewrite H. repeat split. discriminate.
Qed.

(** C4, as amended.  When every candidate fails, every candidate was
    tried in list order and the error thrown inside the adapter names all
    of them, in that order, and carries the message of the last failure;
    the error finally raised is that error behind the prefix of the
    generic kind when its message matches none of the substrings of the
    outer [catch], and the error of the first matching branch otherwise. *)
Theorem all_candidates_fail (w : world) (imagePath apiKey : string)
  (imageBuffer : Buffer) (names : list string) :
  GEMINI_API_KEY w = Some apiKey -> apiKey <> ""%string ->
  readFileSync w imagePath = Ok imageBuffer ->
  snd (candidates w apiKey) = Ok names ->
  (forall i name, names !! i = Some name ->
     exists e, generateContent w i
                 (generationRequest name (toString_base64 imageBuffer) (mimeType imagePath))
               = Throw e) ->
  exists lastName e,
    last names = Some lastName
    /\ generateContent w (length names - 1)
         (generationRequest lastName (toString_base64 imageBuffer) (mimeType imagePath))
       = Throw e
    /\ generationCalls (fst (analyzeFoodWaste w imagePath))
       = map (fun name =>
                generationRequest name (toString_base64 imageBuffer) (mimeType imagePath))
           names
    /\ snd (analyzeFoodWaste_try w imagePath)
       = Throw (Error (msg_all_failed (Some e) names))
    /\ snd (analyzeFoodWaste w imagePath)
       = Throw (classify (Error (msg_all_failed (Some e) names)))
    /\ Str.includes (msg_all_failed (Some e) names) (Str.join ", " names) = true
    /\ (forall m, message e = Some m -> Str.includes (msg_all_failed (Some e) names) m = true)
    /\ (classified (Error (msg_all_failed (Some e) names)) = false ->
        snd (analyzeFoodWaste w imagePath)
        = Throw (Error ("AI analysis failed: " ++ msg_all_failed (Some e) names)%string)).
Proof.
  intros Hkey Hne Hread Hnames Hfail.
  destruct (tryModels_all_fail w (toString_base64 imageBuffer) (mimeType imagePath)
              names 0 None Hfail) as (lastError & Hloop & Hcalls & Hlast).
  destruct (last names) as [lastName|] eqn:Hl.
  2:{ apply last_None in Hl. apply candidates_nonempty in Hnames. contradiction. }
  destruct Hlast as (e & He & ->).
  destruct (content_run w imagePath apiKey imageBuffer names Hkey Hne Hread Hnames)
    as (Hcontent & Hcc & _).
  rewrite Hloop in Hcontent.
  assert (Htry : snd (analyzeFoodWaste_try w imagePath)
                 = Throw (Error (msg_all_failed (Some e) names))).
  { rewrite analyzeFoodWaste_try_snd, Hcontent. reflexivity. }
  assert (Hfinal : snd (analyzeFoodWaste w imagePath)
                   = Throw (classify (Error (msg_all_failed (Some e) names)))).
  { rewrite analyzeFoodWaste_snd, Htry. reflexivity. }
  exists lastName, e. split; [reflexivity|]. split; [exact He|].
  split; [destruct (analyzeFoodWaste_calls w imagePath) as [-> _]; congruence|].
  split; [exact Htry|]. split; [exact Hfinal|].
  split.
  { unfold msg_all_failed. rewrite <- !append_assoc. apply includes_suffix. }
  split.
  { intros m Hm. unfold msg_all_failed. destruct e as [msg]. simpl in Hm. subst msg.
    destruct (String.eqb_spec m "") as [->|_]; [|apply includes_app].
    destruct (_ ++ _)%string; reflexivity. }
  intros Hgeneric. rewrite Hfinal, classify_generic by assumption. reflexivity.
Qed.


(** C6.  Extraction parses the span from the first opening brace to the
    last closing brace when there is one and the whole reply otherwise;
    so for an object text it yields the object the text denotes, alone, in
    a [json] code fence and in any wrapping without an opening brace
    before the text or a closing brace behind it. *)
Theorem fenced_extraction (t : string) (o : gmap string value) :
  JSON.parse t = Some (VObj o) ->
  extract (fenced t) = Some (VObj o)
  /\ extract t = Some (VObj o)
  /\ (forall pre post, Str.lacks "{" pre = true -> Str.lacks "}" post = true ->
        extract (pre ++ t ++ post)%string = Some (VObj o))
  /\ (forall reply,
        extract reply = match Str.match_braces reply with
                        | Some span => JSON.parse span
                        | None => JSON.parse reply
                        end)
  /\ (forall reply span,
        Str.match_braces reply = Some span <->
        exists pre body post,
          reply = (pre ++ String "{" (body ++ String "}" post))%string
          /\ span = String "{" (body ++ String "}" "")
          /\ Str.lacks "{" pre = true /\ Str.lacks "}" post = true).
Proof.
  intros Ht. split; [|split; [|split; [|split]]].
  - apply (extract_wrapped ("```json" ++ String "010" "") (String "010" "```") t o);
      [reflexivity|reflexivity|exact Ht].
  - rewrite <- (append_empty_r t).
    apply (extract_wrapped "" "" t o); [reflexivity|reflexivity|exact Ht].
  - intros pre post Hpre Hpost. apply extract_wrapped; assumption.
  - reflexivity.
  - intros reply span. split.
    + unfold Str.match_braces.
      destruct (Str.from_first "{" reply) as [rest|] eqn:Hf; [|discriminate].
      intros Hu.
      destruct (from_first_inv _ _ _ Hf) as (pre & tail & -> & -> & Hpre).
      destruct (upto_last_inv _ _ _ Hu) as (body0 & post & Heq & -> & Hpost).
      destruct body0 as [|c body].
      * simpl in Heq. injection Heq as Hc _. discriminate.
      * simpl in Heq. injection Heq as <- ->.
        exists pre, body, post. rewrite append_assoc. auto.
    + intros (pre & body & post & -> & -> & Hpre & Hpost).
      apply match_braces_span; assumption.
Qed.

(** C7, as amended.  A reply without a brace span that is not JSON makes
    the call fail with the fixed parse-failure error, raised behind the
    prefix of the generic kind; the reply is written to the error console
    and is no part of the error. *)
Theorem unparseable_reply (w : world) (imagePath text : string) :
  snd (content w imagePath) = Ok text ->
  Str.match_braces text = None -> JSON.parse text = None ->
  snd (analyzeFoodWaste_try w imagePath) = Throw (Error msg_parse_failed)
  /\ snd (analyzeFoodWaste w imagePath)
     = Throw (Error ("AI analysis failed: " ++ msg_parse_failed)%string)
  /\ In (ConsoleError [LStr "Error parsing JSON response:"; LStr text])
       (fst (analyzeFoodWaste w imagePath)).
Proof.
  intros Hcontent Hmatch Hparse.
  assert (Hextract : extract text = None).
  { unfold extract. rewrite Hmatch. exact Hparse. }
  assert (Htry : snd (analyzeFoodWaste_try w imagePath) = Throw (Error msg_parse_failed)).
  { rewrite analyzeFoodWaste_try_snd, Hcontent, Hextract. reflexivity. }
  split; [exact Htry|]. split.
  - rewrite analyzeFoodWaste_snd, Htry. reflexivity.
  - unfold analyzeFoodWaste. rewrite fst_try_catch. apply in_or_app. left.
    unfold analyzeFoodWaste_try. rewrite fst_bind, Hcontent. apply in_or_app. right.
    rewrite fst_bind, parseResponse_fst, Hextract. left. reflexivity.
Qed.


(** C9, as amended.  Whatever stage threw it, an error whose message has
    429 or quota in it and has no API_KEY in it is raised as the
    quota-exceeded error. *)
Theorem quota_exceeded (w : world) (imagePath : string) (error : exn) :
  snd (analyzeFoodWaste_try w imagePath) = Throw error ->
  messageIncludes error "429" = true \/ messageIncludes error "quota" = true ->
  messageIncludes error "API_KEY" = false ->
  snd (analyzeFoodWaste w imagePath) = Throw (Error msg_quota).
Proof.
  intros Htry Hquota Hkey. rewrite analyzeFoodWaste_snd, Htry.
  unfold classify. rewrite Hkey.
  destruct Hquota as [-> | ->]; [rewrite orb_true_r|]; reflexivity.
Qed.

(** C10, as amended.  When the reply parses to a value that is neither an
    object nor an array, no result is returned: normalisation throws the
    engine's TypeError at its first access to [items], and the outer
    [catch] classifies that error by its message as any other, raising it
    behind the prefix of the generic kind when the message matches none of
    its substrings. *)
Theorem primitive_reply (w : world) (imagePath text : string) (analysis : value) :
  snd (content w imagePath) = Ok text ->
  extract text = Some analysis ->
  is_primitive analysis = true ->
  let thrown :=
    TypeError match analysis with
              | VUndefined | VNull => ReadOfNullish analysis "items"
              | _ => CreateOnPrimitive "items" analysis
              end in
  normalize analysis = Throw thrown
  /\ snd (analyzeFoodWaste_try w imagePath) = Throw thrown
  /\ snd (analyzeFoodWaste w imagePath) = Throw (classify thrown)
  /\ (forall result, snd (analyzeFoodWaste w imagePath) <> Ok result)
  /\ (classified thrown = false ->
      snd (analyzeFoodWaste w imagePath) = Throw (Error (msg_analysis_failed thrown))).
Proof.
  intros Hcontent Hextract Hprim thrown.
  assert (Hnorm : normalize analysis = Throw thrown) by (apply normalize_primitive; exact Hprim).
  assert (Htry : snd (analyzeFoodWaste_try w imagePath) = Throw thrown).
  { rewrite analyzeFoodWaste_try_snd, Hcontent, Hextract. exact Hnorm. }
  assert (Hfinal : snd (analyzeFoodWaste w imagePath) = Throw (classify thrown)).
  { rewrite analyzeFoodWaste_snd, Htry. reflexivity. }
  repeat split; try assumption.
  - intros result. rewrite Hfinal. discriminate.
  - intros Hgeneric. rewrite Hfinal, classify_generic by assumption. reflexivity.
Qed.

(** * Beyond the claims: the rest of the adapter, the route and the upload form *)

(** ** Further facts about strings *)

Lemma length_append (a b : string) :
  String.length (a ++ b)%string = String.length a + String.length b.
Proof. induction a as [|x a IH]; simpl; [reflexivity | rewrite IH; reflexivity]. Qed.

Lemma drop_app (a b : string) (k : nat) :
  Str.drop (String.length a + k) (a ++ b)%string = Str.drop k b.
Proof. induction a as [|x a IH]; simpl; [reflexivity | exact IH]. Qed.

Lemma drop_split (k : nat) (s : string) :
  exists pre, s = (pre ++ Str.drop k s)%string.
Proof.
  revert s. induction k as [|k IH]; intros s.
  - exists EmptyString. reflexivity.
  - destruct s as [|c s]; [exists EmptyString; reflexivity|].
    destruct (IH s) as [pre Hpre]. exists (String c pre). simpl.
    rewrite <- Hpre. reflexivity.
Qed.

Lemma endsWith_inv (s suffix : string) :
  Str.endsWith s suffix = true -> exists pre, s = (pre ++ suffix)%string.
Proof.
  unfold Str.endsWith. intros H. apply andb_true_iff in H as [_ H].
  apply String.eqb_eq in H.
  destruct (drop_split (String.length s - String.length suffix) s) as [pre Hpre].
  exists pre. rewrite H in Hpre. exact Hpre.
Qed.

(** A suffix no longer than the last part of a text is looked for in that
    part alone. *)
Lemma endsWith_app_long (a b suffix : string) :
  String.length suffix <= String.length b ->
  Str.endsWith (a ++ b)%string suffix = Str.endsWith b suffix.
Proof.
  intros Hle. unfold Str.endsWith. rewrite length_append.
  replace (String.length a + String.length b - String.length suffix)
    with (String.length a + (String.length b - String.length suffix)) by lia.
  rewrite drop_app.
  assert (H1 : Nat.leb (String.length suffix) (String.length a + String.length b) = true)
    by (apply Nat.leb_le; lia).
  assert (H2 : Nat.leb (String.length suffix) (String.length b) = true)
    by (apply Nat.leb_le; lia).
  rewrite H1, H2. reflexivity.
Qed.

(** Two ways of cutting one text: the shorter last part is the end of the
    longer one. *)
Lemma app_eq_app_suffix (a s1 : string) :
  forall pre s2 : string,
    (a ++ s1 = pre ++ s2)%string -> String.length s1 <= String.length s2 ->
    exists t, s2 = (t ++ s1)%string.
Proof.
  induction a as [|c a IH]; intros pre s2 H Hle.
  - simpl in H. subst s1. rewrite length_append in Hle.
    destruct pre as [|x pre]; [exists EmptyString; reflexivity|].
    simpl in Hle. lia.
  - destruct pre as [|x pre].
    + simpl in H. exists (String c a). symmetry. exact H.
    + simpl in H. injection H as _ H. exact (IH pre s2 H Hle).
Qed.

Lemma toLowerCase_app (a b : string) :
  Str.toLowerCase (a ++ b)%string = (Str.toLowerCase a ++ Str.toLowerCase b)%string.
Proof. induction a as [|x a IH]; simpl; [reflexivity | rewrite IH; reflexivity]. Qed.

Lemma length_toLowerCase (s : string) :
  String.length (Str.toLowerCase s) = String.length s.
Proof. induction s as [|x s IH]; simpl; [reflexivity | rewrite IH; reflexivity]. Qed.

(** The test for the PNG extension sees the part behind the last hyphen
    only. *)
Lemma endsWith_png_hyphen (a b : string) :
  Str.endsWith (a ++ String "-" b)%string ".png" = Str.endsWith b ".png".
Proof.
  destruct (Nat.leb 4 (String.length b)) eqn:Hlen.
  - apply Nat.leb_le in Hlen.
    change (a ++ String "-" b)%string with (a ++ ("-" ++ b))%string.
    rewrite <- append_assoc. apply endsWith_app_long. exact Hlen.
  - assert (Hb : Str.endsWith b ".png" = false)
      by (unfold Str.endsWith; cbn [String.length]; rewrite Hlen; reflexivity).
    rewrite Hb. apply Nat.leb_gt in Hlen.
    destruct (Str.endsWith (a ++ String "-" b) ".png") eqn:He; [|reflexivity].
    apply endsWith_inv in He as [pre Hpre].
    apply app_eq_app_suffix in Hpre as [t Ht]; [|simpl; lia].
    apply (f_equal (Str.lacks "-")) in Ht. rewrite lacks_app in Ht.
    simpl in Ht. rewrite andb_false_r in Ht. discriminate.
Qed.

(** ** Further facts about the stages before parsing *)

Lemma content_unreadable (w : world) (imagePath apiKey : string) (e : exn) :
  GEMINI_API_KEY w = Some apiKey -> apiKey <> ""%string ->
  readFileSync w imagePath = Throw e ->
  content w imagePath = ([], Throw e).
Proof.
  intros Hkey Hne Hread. unfold content. rewrite Hkey.
  apply String.eqb_neq in Hne. rewrite Hne, Hread. reflexivity.
Qed.


(** X1.  With a credential set, an image that cannot be read ends the call
    before anything is requested: the only event is the [console.error] of
    the outer [catch], carrying what [readFileSync] threw, and the error
    raised is the classification of that error; it is the not-found error
    when its message holds [ENOENT] and none of the substrings tested
    before it. *)
Theorem unreadable_image (w : world) (imagePath apiKey : string) (e : exn) :
  GEMINI_API_KEY w = Some apiKey -> apiKey <> ""%string ->
  readFileSync w imagePath = Throw e ->
  analyzeFoodWaste w imagePath
  = ([ConsoleError [LStr "Error in AI vision analysis:"; LExn e]], Throw (classify e))
  /\ (messageIncludes e "ENOENT" = true ->
      messageIncludes e "API_KEY" || messageIncludes e "quota"
      || messageIncludes e "429" || messageIncludes e "403"
      || messageIncludes e "PERMISSION_DENIED" || messageIncludes e "400"
      || messageIncludes e "INVALID_ARGUMENT" = false ->
      classify e = Error msg_not_found).
Proof.
  intros Hkey Hne Hread. split.
  - unfold analyzeFoodWaste, analyzeFoodWaste_try.
    rewrite (content_unreadable w imagePath apiKey e Hkey Hne Hread). reflexivity.
  - intros Hnoent H. unfold classify.
    repeat (apply orb_false_iff in H as [H ?]).
    repeat match goal with E : messageIncludes _ _ = false |- _ => rewrite E; clear E end.
    rewrite Hnoent. reflexivity.
Qed.


(** X3.  A candidate that answers with the empty text ends the loop like
    a success: no later candidate is tried.  The [try] block then throws
    the error of line 139, whose message lists every candidate, tried or
    not, and names no underlying error ("Unknown error") when the very
    first candidate gave the empty answer. *)
Theorem empty_reply (w : world) (imagePath apiKey : string) (imageBuffer : Buffer)
  (names : list string) (j : nat) (name : string) :
  let request name :=
    generationRequest name (toString_base64 imageBuffer) (mimeType imagePath) in
  GEMINI_API_KEY w = Some apiKey -> apiKey <> ""%string ->
  readFileSync w imagePath = Ok imageBuffer ->
  snd (candidates w apiKey) = Ok names ->
  names !! j = Some name ->
  (forall i namei, i < j -> names !! i = Some namei ->
     exists e, generateContent w i (request namei) = Throw e) ->
  generateContent w j (request name) = Ok ""%string ->
  generationCalls (fst (analyzeFoodWaste w imagePath))
  = map request (List.firstn (S j) names)
  /\ exists lastError,
       snd (analyzeFoodWaste_try w imagePath)
       = Throw (Error (msg_all_failed lastError names))
       /\ (j = 0 -> lastError = None)
       /\ Str.includes (msg_all_failed lastError names) (Str.join ", " names) = true.
Proof.
  intros request Hkey Hne Hread Hnames Hj Hfail Hok.
  destruct (content_run w imagePath apiKey imageBuffer names Hkey Hne Hread Hnames)
    as (Hsnd & Hgen & _).
  destruct (analyzeFoodWaste_calls w imagePath) as [-> _].
  destruct (tryModels_first_success w (toString_base64 imageBuffer) (mimeType imagePath)
              j names 0 None name "" Hj Hfail Hok) as [[lastError Hloop] Hcalls].
  split; [rewrite Hgen; exact Hcalls|].
  exists lastError. rewrite analyzeFoodWaste_try_snd, Hsnd, Hloop. cbn [String.eqb].
  split; [reflexivity|]. split.
  - intros ->. destruct names as [|name0 rest]; [discriminate|].
    injection Hj as ->. rewrite tryModels_cons in Hloop.
    change (generateContent w 0 (request name) = Ok ""%string) in Hok.
    unfold request in Hok. rewrite Hok in Hloop. cbn [snd] in Hloop. congruence.
  - unfold msg_all_failed. rewrite <- !append_assoc. apply includes_suffix.
Qed.

(** Every generation call of the stages before parsing is made for the
    image read and the MIME type of its path. *)
Lemma content_generationCalls (w : world) (imagePath : string) (req : request) :
  In req (generationCalls (fst (content w imagePath))) ->
  exists imageBuffer name,
    readFileSync w imagePath = Ok imageBuffer
    /\ req = generationRequest name (toString_base64 imageBuffer) (mimeType imagePath).
Proof.
  destruct (GEMINI_API_KEY w) as [apiKey|] eqn:Hkey;
    [|rewrite content_no_key by auto; intros []].
  destruct (String.eqb_spec apiKey "") as [->|Hne];
    [rewrite content_no_key by auto; intros []|].
  destruct (readFileSync w imagePath) as [imageBuffer|e] eqn:Hread;
    [|rewrite (content_unreadable w imagePath apiKey e Hkey Hne Hread); intros []].
  destruct (snd (candidates w apiKey)) as [names|e] eqn:Hnames.
  2:{ rewrite candidates_snd, availableModels_snd, modelNames_snd in Hnames. discriminate. }
  destruct (content_run w imagePath apiKey imageBuffer names Hkey Hne Hread Hnames)
    as (_ & Hgen & _).
  rewrite Hgen.
  destruct (tryModels_calls w (toString_base64 imageBuffer) (mimeType imagePath)
              names 0 None) as (n & _ & ->).
  intros Hin. apply in_map_iff in Hin as (name & <- & _).
  exists imageBuffer, name. auto.
Qed.

(** X4.  In every run, each generation call carries the fixed prompt, the
    base64 text of the image read from the given path and the MIME type
    inferred from that path, at temperature 0.4; it asks for a JSON
    response exactly when the model name contains [1.5]. *)
Theorem generation_requests (w : world) (imagePath : string) (req : request) :
  In req (generationCalls (fst (analyzeFoodWaste w imagePath))) ->
  exists imageBuffer,
    readFileSync w imagePath = Ok imageBuffer
    /\ promptPart req = prompt
    /\ imagePart req = {| data := toString_base64 imageBuffer;
                          imageMimeType := mimeType imagePath |}
    /\ temperature (generation (config req)) = 0.4%float
    /\ responseMimeType (generation (config req))
       = if Str.includes (model (config req)) "1.5" then Some "application/json"%string
         else None.
Proof.
  destruct (analyzeFoodWaste_calls w imagePath) as [-> _]. intros Hin.
  apply content_generationCalls in Hin as (imageBuffer & name & Hread & ->).
  exists imageBuffer. repeat split; auto.
Qed.

(** ** Further facts about normalisation *)

(** Writing back what a property holds changes nothing. *)
Lemma set_get_id (v x : value) (p : string) :
  is_primitive v = false -> get v p = Ok x -> x <> VUndefined -> set v p x = Ok v.
Proof.
  destruct v as [| | | | |elems m|m]; try discriminate; intros _ H Hx; simpl in *;
    injection H as H;
    (destruct (m !! p) as [y|] eqn:Hy; simpl in H; [subst y|congruence]);
    rewrite insert_id by exact Hy; reflexivity.
Qed.

Lemma get_array_not_primitive (v : value) (p : string) (elems : list value)
  (props : gmap string value) :
  get v p = Ok (VArr elems props) -> is_primitive v = false.
Proof. destruct v; simpl; intros H; try discriminate; reflexivity. Qed.

(** The sum of a string and anything is a string. *)
Lemma add_string_l (s : string) (b v : value) :
  add (VStr s) b = Ok v -> exists s', v = VStr s'.
Proof.
  unfold add. cbn [ToPrimitive result_bind].
  destruct (ToPrimitive b) as [rprim|]; [|discriminate]. cbn [result_bind ToString].
  destruct (ToString rprim) as [rstr|]; [|discriminate]. cbn [result_bind].
  intros [= <-]. eauto.
Qed.

Lemma add_string_r (a v : value) (s : string) :
  add a (VStr s) = Ok v -> exists s', v = VStr s'.
Proof.
  unfold add. destruct (ToPrimitive a) as [lprim|]; [|discriminate].
  cbn [ToPrimitive result_bind].
  destruct (ToString lprim) as [lstr|] eqn:Hl.
  - destruct lprim; cbn [result_bind ToString] in *; rewrite ?Hl; cbn [result_bind];
      intros [= <-]; eauto.
  - destruct lprim; cbn [result_bind ToString] in *; rewrite ?Hl; cbn [result_bind];
      try discriminate.
Qed.

(** A sum is a number or a string. *)
Lemma add_result (a b v : value) :
  add a b = Ok v -> (exists x, v = VNum x) \/ (exists s, v = VStr s).
Proof.
  unfold add. destruct (ToPrimitive a) as [lprim|]; [|discriminate].
  cbn [result_bind]. destruct (ToPrimitive b) as [rprim|]; [|discriminate].
  cbn [result_bind].
  destruct lprim, rprim;
    repeat match goal with
           | |- context [result_bind (ToString ?v) _] =>
               destruct (ToString v); cbn [result_bind]
           end;
    intros H; try discriminate; injection H as <-; eauto.
Qed.

Lemma reduce_result (items : list value) :
  forall acc sum : value,
    reduce items acc = Ok sum ->
    ((exists x, acc = VNum x) \/ (exists s, acc = VStr s)) ->
    (exists x, sum = VNum x) \/ (exists s, sum = VStr s).
Proof.
  induction items as [|item rest IH]; intros acc sum H Hacc.
  - injection H as <-. exact Hacc.
  - cbn [reduce] in H.
    destruct (addEstimatedValue acc item) as [acc'|] eqn:Hadd; [|discriminate].
    cbn [result_bind] in H. apply (IH acc' sum H).
    unfold addEstimatedValue in Hadd.
    destruct (get item "estimatedValue") as [ev|]; [|discriminate].
    cbn [result_bind] in Hadd. exact (add_result _ _ _ Hadd).
Qed.

(** Once the running sum is a string it stays one. *)
Lemma reduce_string (items : list value) :
  forall (s : string) (sum : value),
    reduce items (VStr s) = Ok sum -> exists s', sum = VStr s'.
Proof.
  induction items as [|item rest IH]; intros s sum H.
  - injection H as <-. eauto.
  - cbn [reduce] in H.
    destruct (addEstimatedValue (VStr s) item) as [acc'|] eqn:Hadd; [|discriminate].
    cbn [result_bind] in H.
    unfold addEstimatedValue in Hadd.
    destruct (get item "estimatedValue") as [ev|]; [|discriminate].
    cbn [result_bind] in Hadd. apply add_string_l in Hadd as [s' ->].
    exact (IH s' sum H).
Qed.

(** A string among the estimated values turns the sum into a string. *)
Lemma reduce_with_string (items : list value) (item : value) (text : string) :
  In item items -> get item "estimatedValue" = Ok (VStr text) -> text <> ""%string ->
  forall acc sum : value, reduce items acc = Ok sum -> exists s, sum = VStr s.
Proof.
  intros Hin Hget Htext. induction items as [|item0 rest IH]; [contradiction|].
  intros acc sum H. cbn [reduce] in H.
  destruct (addEstimatedValue acc item0) as [acc'|] eqn:Hadd; [|discriminate].
  cbn [result_bind] in H. destruct Hin as [->|Hin].
  - unfold addEstimatedValue in Hadd. rewrite Hget in Hadd. cbn [result_bind] in Hadd.
    assert (Ht : truthy (VStr text) = true).
    { simpl. apply negb_true_iff. apply String.eqb_neq. exact Htext. }
    rewrite Ht in Hadd. apply add_string_r in Hadd as [s' ->].
    exact (reduce_string rest s' sum H).
  - exact (IH Hin acc' sum H).
Qed.

(** X5.  Normalisation is idempotent: a value it returned is returned
    unchanged when normalised again. *)
Theorem normalize_idempotent (analysis result : value) :
  normalize analysis = Ok result -> normalize result = Ok result.
Proof.
  intros H.
  destruct (normalize_Ok analysis result H)
    as (items & total & waste & _ & _ & _ & Hitems & Hnum & Hsum & Hwaste & _).
  assert (Harr : exists elems props, get result "items" = Ok (VArr elems props)).
  { rewrite Hitems. destruct items; cbn [truthy isArray andb];
      rewrite ?andb_false_r; eauto. }
  destruct Harr as (elems & props & Harr).
  pose proof (get_array_not_primitive _ _ _ _ Harr) as Hprim.
  unfold normalize. rewrite Harr. cbn [result_bind truthy isArray negb orb].
  destruct (String.eqb_spec (typeof total) "number") as [Hn|Hn].
  - rewrite (Hnum Hn). cbn [result_bind].
    rewrite (proj2 (String.eqb_eq (typeof total) "number") Hn). cbn [negb result_bind].
    rewrite Hwaste. cbn [result_bind].
    assert (Ht : truthy (if truthy waste then waste else defaultEstimatedWaste) = true)
      by (destruct (truthy waste) eqn:Hw; [exact Hw|reflexivity]).
    rewrite Ht. reflexivity.
  - destruct (Hsum Hn) as (elems' & props' & sum & Harr' & Hred & Htotal).
    rewrite Harr in Harr'. injection Harr' as <- <-.
    rewrite Htotal. cbn [result_bind].
    assert (Hset : (if negb (String.eqb (typeof sum) "number")
                    then
                      result_bind (get result "items")
                        (fun items =>
                           match items with
                           | VArr elems _ =>
                               result_bind (reduce elems (VNum 0))
                                 (fun sum => set result "totalEstimatedValue" sum)
                           | VUndefined | VNull =>
                               Throw (TypeError (ReadOfNullish items "reduce"))
                           | _ => Throw (TypeError (NotAFunction "analysis.items.reduce"))
                           end)
                    else Ok result) = Ok result).
    { destruct (negb (String.eqb (typeof sum) "number")); [|reflexivity].
      rewrite Harr. cbn [result_bind]. rewrite Hred. cbn [result_bind].
      apply set_get_id; [exact Hprim|exact Htotal|].
      destruct (reduce_result elems (VNum 0) sum Hred) as [[x ->]|[s ->]];
        [eauto|discriminate|discriminate]. }
    rewrite Hset. cbn [result_bind]. rewrite Hwaste. cbn [result_bind].
    assert (Ht : truthy (if truthy waste then waste else defaultEstimatedWaste) = true)
      by (destruct (truthy waste) eqn:Hw; [exact Hw|reflexivity]).
    rewrite Ht. reflexivity.
Qed.

(** X6.  When the total is recomputed (upstream gave none, or one that is
    not a number) and some returned item has a non-empty string as its
    [estimatedValue], the returned [totalEstimatedValue] is a string: [+]
    concatenates from that item on. *)
Theorem string_estimated_value (analysis result total item : value)
  (elems : list value) (props : gmap string value) (text : string) :
  normalize analysis = Ok result ->
  get analysis "totalEstimatedValue" = Ok total -> typeof total <> "number"%string ->
  get result "items" = Ok (VArr elems props) -> In item elems ->
  get item "estimatedValue" = Ok (VStr text) -> text <> ""%string ->
  exists s, get result "totalEstimatedValue" = Ok (VStr s).
Proof.
  intros H Htotal Hn Harr Hin Hget Htext.
  destruct (normalize_Ok analysis result H)
    as (items & total' & waste & _ & Ht & _ & _ & _ & Hsum & _).
  rewrite Htotal in Ht. injection Ht as <-.
  destruct (Hsum Hn) as (elems' & props' & sum & Harr' & Hred & Hres).
  rewrite Harr in Harr'. injection Harr' as <- <-.
  destruct (reduce_with_string elems item text Hin Hget Htext (VNum 0) sum Hred) as [s ->].
  exists s. exact Hres.
Qed.

(** X7.  On every successful return, every property other than [items],
    [totalEstimatedValue] and [estimatedWaste] reads as in the value parsed
    from the reply: normalisation neither adds, removes nor changes any
    other property. *)
Theorem other_properties_untouched (w : world) (imagePath : string) (result : value) :
  snd (analyzeFoodWaste w imagePath) = Ok result ->
  exists text upstream,
    snd (content w imagePath) = Ok text /\ extract text = Some upstream
    /\ forall q : string,
         q <> "items"%string -> q <> "totalEstimatedValue"%string ->
         q <> "estimatedWaste"%string -> get result q = get upstream q.
Proof.
  intros H. apply analyzeFoodWaste_Ok in H as (text & upstream & Hc & He & Hn).
  exists text, upstream. split; [exact Hc|]. split; [exact He|].
  destruct (normalize_Ok upstream result Hn) as (_ & _ & _ & _ & _ & _ & _ & _ & _ & _ & H).
  exact H.
Qed.

(** ** Further facts about the outer [catch] *)

(** The error thrown, branch by branch: the branch that re-throws is never
    taken. *)
Lemma classify_cases (error : exn) :
  classify error
  = if messageIncludes error "API_KEY" then Error msg_invalid_key
    else if messageIncludes error "quota" || messageIncludes error "429"
    then Error msg_quota
    else if messageIncludes error "403" || messageIncludes error "PERMISSION_DENIED"
    then Error msg_forbidden
    else if messageIncludes error "400" || messageIncludes error "INVALID_ARGUMENT"
    then Error msg_invalid_request
    else if messageIncludes error "ENOENT" then Error msg_not_found
    else Error (msg_analysis_failed error).
Proof.
  destruct (classified error) eqn:Hc.
  - unfold classify.
    repeat match goal with
           | |- context [if ?b then _ else _] =>
               lazymatch b with
               | context [if _ then _ else _] => fail
               | _ => destruct b eqn:?; try reflexivity
               end
           end.
    unfold classified in Hc.
    repeat match goal with
           | E : (_ || _) = false |- _ => apply orb_false_iff in E as [? ?]
           end.
    repeat match goal with E : messageIncludes _ _ = false |- _ =>
             rewrite E in Hc; clear E end.
    discriminate.
  - rewrite (classify_generic error Hc). unfold classified in Hc.
    repeat (apply orb_false_iff in Hc as [Hc ?]).
    repeat match goal with E : messageIncludes _ _ = false |- _ => rewrite E; clear E end.
    reflexivity.
Qed.

(** X8.  Every error [analyzeFoodWaste] raises has a message that is not
    empty: one of the five fixed texts of the outer [catch], or the prefix
    [AI analysis failed: ] followed by a cause that is not empty. *)
Theorem raised_errors (w : world) (imagePath : string) (e : exn) :
  snd (analyzeFoodWaste w imagePath) = Throw e ->
  exists m, e = Error m /\ m <> ""%string
    /\ (m = msg_invalid_key \/ m = msg_quota \/ m = msg_forbidden
        \/ m = msg_invalid_request \/ m = msg_not_found
        \/ exists cause, cause <> ""%string
                         /\ m = ("AI analysis failed: " ++ cause)%string).
Proof.
  rewrite analyzeFoodWaste_snd.
  destruct (snd (analyzeFoodWaste_try w imagePath)) as [result|error]; [discriminate|].
  intros [= <-]. rewrite classify_cases.
  repeat match goal with
         | |- context [if ?b then _ else _] =>
             lazymatch b with
             | context [if _ then _ else _] => fail
             | _ => destruct b
             end
         end;
    (eexists; split; [reflexivity|]; split; [discriminate|]);
    try (unfold msg_invalid_key, msg_quota, msg_forbidden, msg_invalid_request,
           msg_not_found; tauto).
  do 5 right. unfold msg_analysis_failed.
  eexists. split; [|reflexivity].
  destruct (message error) as [m|]; [|discriminate].
  destruct (String.eqb_spec m ""); [discriminate|assumption].
Qed.

(** ** Facts about the server's route *)

Lemma analyzeWaste_catch_snd (error : exn) :
  snd (analyzeWaste_catch error)
  = match message error with
    | None => Throw (TypeError (ReadOfNullish VUndefined "includes"))
    | Some m =>
        Ok {| statusCode := statusCodeFor m;
              jsonBody :=
                VObj (<["error" := VStr "Failed to analyze waste"]>
                      (<["message" :=
                           VStr (if String.eqb m ""
                                 then "An unknown error occurred while analyzing the image"
                                 else m)]> ∅)) |}
    end.
Proof.
  unfold analyzeWaste_catch. rewrite snd_bind. cbn [emit snd].
  destruct (message error); reflexivity.
Qed.

(** The prefix of the generic message holds none of the substrings the
    route looks for, nor the beginning of one. *)
Lemma generic_prefix_includes (cause needle : string) :
  In needle ["quota"; "429"; "rate limit"; "API key"; "API_KEY"; "401"; "403";
             "PERMISSION_DENIED"; "file not found"; "ENOENT"; "400";
             "INVALID_ARGUMENT"; "GEMINI_API_KEY is not set"]%string ->
  Str.includes ("AI analysis failed: " ++ cause)%string needle = Str.includes cause needle.
Proof.
  intros Hin. cbn [In] in Hin.
  repeat (destruct Hin as [<-|Hin]; [reflexivity|]). contradiction.
Qed.

(** X9.  The adapter infers for an upload stored under the name the
    middleware gives it, in whatever directory, the MIME type it infers for
    the original file name: the extension survives the prefix of time
    stamp and random number, however the engine renders the two. *)
Theorem stored_upload_mimeType (now random : float) (originalname dir : string) :
  mimeType (dir ++ storageFilename now random originalname) = mimeType originalname.
Proof.
  assert (H : Str.endsWith
                (Str.toLowerCase (dir ++ storageFilename now random originalname)) ".png"
              = Str.endsWith (Str.toLowerCase originalname) ".png").
  { unfold storageFilename. cbv zeta.
    rewrite <- (append_assoc dir). rewrite toLowerCase_app.
    change (Str.toLowerCase ("-" ++ originalname))
      with (String "-" (Str.toLowerCase originalname)).
    apply endsWith_png_hyphen. }
  unfold mimeType. rewrite H.
  destruct (Str.endsWith (Str.toLowerCase originalname) ".png"); [reflexivity|].
  repeat match goal with |- context [if ?b then _ else _] => destruct b end; reflexivity.
Qed.

(** X10.  When the adapter fails, the route always answers, with the
    adapter's message in the body, and the status depends on the error
    caught inside the adapter as follows, first match first: [API_KEY]
    401; [quota] or [429] 429; [403] or [PERMISSION_DENIED] 401; [400] or
    [INVALID_ARGUMENT] 500, not 400, the adapter's text for that case
    holding neither substring; [ENOENT] 404; then, the message being
    passed on behind a prefix, [rate limit] 429; [API key] or [401] 401;
    [file not found] 404; otherwise 500. *)
Theorem analyzeWaste_adapter_failure (w : world) (s : serverWorld) (file : uploadedFile)
  (error : exn) :
  snd (analyzeFoodWaste_try w (path file)) = Throw error ->
  exists m,
    classify error = Error m /\ m <> ""%string
    /\ snd (analyzeWaste w s (Some file))
       = Ok {| statusCode :=
                 if messageIncludes error "API_KEY" then 401
                 else if messageIncludes error "quota" || messageIncludes error "429"
                 then 429
                 else if messageIncludes error "403"
                         || messageIncludes error "PERMISSION_DENIED" then 401
                 else if messageIncludes error "400"
                         || messageIncludes error "INVALID_ARGUMENT" then 500
                 else if messageIncludes error "ENOENT" then 404
                 else if messageIncludes error "rate limit" then 429
                 else if messageIncludes error "API key" || messageIncludes error "401"
                 then 401
                 else if messageIncludes error "file not found" then 404
                 else 500;
               jsonBody :=
                 VObj (<["error" := VStr "Failed to analyze waste"]>
                       (<["message" := VStr m]> ∅)) |}.
Proof.
  intros H. unfold analyzeWaste. rewrite snd_try_catch. cbv zeta.
  rewrite snd_bind, analyzeFoodWaste_snd, H, analyzeWaste_catch_snd, classify_cases.
  destruct (messageIncludes error "API_KEY") eqn:E1;
    [exists msg_invalid_key; split; [reflexivity|]; split; [discriminate|reflexivity]|].
  destruct (messageIncludes error "quota" || messageIncludes error "429") eqn:E2;
    [exists msg_quota; split; [reflexivity|]; split; [discriminate|reflexivity]|].
  destruct (messageIncludes error "403" || messageIncludes error "PERMISSION_DENIED") eqn:E3;
    [exists msg_forbidden; split; [reflexivity|]; split; [discriminate|reflexivity]|].
  destruct (messageIncludes error "400" || messageIncludes error "INVALID_ARGUMENT") eqn:E4;
    [exists msg_invalid_request; split; [reflexivity|]; split; [discriminate|reflexivity]|].
  destruct (messageIncludes error "ENOENT") eqn:E5;
    [exists msg_not_found; split; [reflexivity|]; split; [discriminate|reflexivity]|].
  exists (msg_analysis_failed error). split; [reflexivity|]. split; [discriminate|].
  cbn [message Error]. unfold statusCodeFor, msg_analysis_failed.
  rewrite !generic_prefix_includes by (cbn [In]; tauto).
  apply orb_false_iff in E2 as [E2 E2'], E3 as [E3 E3'], E4 as [E4 E4'].
  unfold messageIncludes in *.
  destruct (message error) as [m|]; [|reflexivity].
  destruct (String.eqb_spec m "") as [->|Hm]; [reflexivity|].
  rewrite E1, E2, E2', E3, E3', E4, E4', E5.
  change (String.eqb ("AI analysis failed: " ++ m) "") with false.
  cbn [orb]. rewrite !orb_false_r.
  repeat match goal with
         | |- context [if ?b then _ else _] =>
             lazymatch b with
             | context [if _ then _ else _] => fail
             | _ => destruct b
             end
         end; reflexivity.
Qed.

(** What the adapter returns has its items in an array and a truthy
    [estimatedWaste]. *)
Lemma analyzeFoodWaste_shape (w : world) (imagePath : string) (analysis : value) :
  snd (analyzeFoodWaste w imagePath) = Ok analysis ->
  exists elems props estimatedWaste notes,
    get analysis "items" = Ok (VArr elems props)
    /\ get analysis "estimatedWaste" = Ok estimatedWaste
    /\ truthy estimatedWaste = true
    /\ get analysis "notes" = Ok notes.
Proof.
  intros H. apply analyzeFoodWaste_Ok in H as (text & upstream & _ & _ & H).
  destruct (normalize_Ok upstream analysis H)
    as (items & total & waste & _ & _ & _ & Hitems & _ & _ & Hwaste & Hother).
  assert (Harr : exists elems props, get analysis "items" = Ok (VArr elems props)).
  { rewrite Hitems. destruct items; cbn [truthy isArray andb];
      rewrite ?andb_false_r; eauto. }
  destruct Harr as (elems & props & Harr).
  assert (Hnotes : exists notes, get analysis "notes" = Ok notes).
  { destruct analysis; try discriminate; simpl; eauto. }
  destruct Hnotes as [notes Hnotes].
  exists elems, props, (if truthy waste then waste else defaultEstimatedWaste), notes.
  split; [exact Harr|]. split; [exact Hwaste|]. split; [|exact Hnotes].
  destruct (truthy waste) eqn:Hw; [exact Hw|reflexivity].
Qed.

(** X11.  When the adapter returns an analysis, the entry handed to
    [logWaste] holds the analysis' own [items], an array, and its own
    [estimatedWaste]: the defaults [[]] and [{}] of lines 78 and 79 are
    never used; [notes] is the analysis' or the empty string.  The response
    is 200 with the analysis and what [logWaste] resolved to, and the
    [catch] block's response when [logWaste] rejects. *)
Theorem analyzeWaste_success (w : world) (s : serverWorld) (file : uploadedFile)
  (analysis : value) :
  snd (analyzeFoodWaste w (path file)) = Ok analysis ->
  exists elems props estimatedWaste notes,
    get analysis "items" = Ok (VArr elems props)
    /\ get analysis "estimatedWaste" = Ok estimatedWaste
    /\ truthy estimatedWaste = true
    /\ get analysis "notes" = Ok notes
    /\ snd (analyzeWaste w s (Some file))
       = match logWaste s
                 (VObj (<["imagePath" := VStr ("/uploads/" ++ filename file)]>
                        (<["items" := VArr elems props]>
                         (<["estimatedWaste" := estimatedWaste]>
                          (<["timestamp" := VStr (toISOString s)]>
                           (<["notes" := if truthy notes then notes else VStr ""]> ∅))))))
         with
         | Ok wasteEntry =>
             Ok {| statusCode := 200;
                   jsonBody :=
                     VObj (<["success" := VBool true]>
                           (<["analysis" := analysis]>
                            (<["wasteEntry" := wasteEntry]> ∅))) |}
         | Throw e => snd (analyzeWaste_catch e)
         end.
Proof.
  intros H.
  destruct (analyzeFoodWaste_shape w (path file) analysis H)
    as (elems & props & estimatedWaste & notes & Hitems & Hwaste & Htruthy & Hnotes).
  exists elems, props, estimatedWaste, notes.
  split; [exact Hitems|]. split; [exact Hwaste|]. split; [exact Htruthy|].
  split; [exact Hnotes|].
  unfold analyzeWaste. rewrite snd_try_catch. cbv zeta.
  rewrite snd_bind, H, snd_bind, Hitems. cbn [lift snd].
  rewrite snd_bind, Hwaste. cbn [lift snd]. rewrite snd_bind, Hnotes. cbn [lift snd].
  rewrite snd_bind. cbn [lift snd]. unfold wasteEntryOf. rewrite Htruthy.
  cbn [truthy].
  match goal with |- context [logWaste s ?entry] => destruct (logWaste s entry) end;
    reflexivity.
Qed.


(** ** Facts about the upload form *)

(** X13.  The upload form never shows the text written for a credential
    that is not configured: a message with [GEMINI_API_KEY is not set]
    holds [API_KEY] and is caught by an earlier branch. *)
Theorem errorMessage_never_not_configured (response_message err_message : option string) :
  errorMessage response_message err_message <> text_not_configured.
Proof.
  unfold errorMessage.
  cbv zeta.
  match goal with |- context [Str.includes ?c "quota"] => generalize c end.
  intros chosen.
  destruct (Str.includes chosen "quota"); [discriminate|].
  destruct (Str.includes chosen "API key" || Str.includes chosen "API_KEY") eqn:Hkey;
    [discriminate|].
  destruct (Str.includes chosen "rate limit"); [discriminate|].
  apply orb_false_iff in Hkey as [Hkey Hkey'].
  destruct (Str.includes chosen "GEMINI_API_KEY is not set") eqn:Hset.
  - rewrite (includes_trans chosen _ "API_KEY" Hset eq_refl) in Hkey'. discriminate.
  - intros ->. discriminate.
Qed.

(** X14.  What the upload form shows when the message of an error raised
    by the adapter reaches it as the response message, by the error caught
    inside the adapter, first match first: [API_KEY] the key-error text;
    [quota] or [429] the quota text; [403] or [PERMISSION_DENIED] the
    key-error text; [400] or [INVALID_ARGUMENT] and [ENOENT] the adapter's
    own text; then [API key] the key-error text; [rate limit] the
    rate-limit text; otherwise the adapter's generic message. *)
Theorem errorMessage_of_raised_error (error : exn) (err_message : option string) :
  exists m,
    classify error = Error m
    /\ errorMessage (Some m) err_message
       = if messageIncludes error "API_KEY" then text_key_error
         else if messageIncludes error "quota" || messageIncludes error "429"
         then text_quota
         else if messageIncludes error "403" || messageIncludes error "PERMISSION_DENIED"
         then text_key_error
         else if messageIncludes error "400" || messageIncludes error "INVALID_ARGUMENT"
         then msg_invalid_request
         else if messageIncludes error "ENOENT" then msg_not_found
         else if messageIncludes error "API key" then text_key_error
         else if messageIncludes error "rate limit" then text_rate_limit
         else msg_analysis_failed error.
Proof.
  assert (Hchosen : forall m : string, m <> ""%string ->
            errorMessage (Some m) err_message
            = if Str.includes m "quota" then text_quota
              else if Str.includes m "API key" || Str.includes m "API_KEY"
              then text_key_error
              else if Str.includes m "rate limit" then text_rate_limit
              else if Str.includes m "GEMINI_API_KEY is not set" then text_not_configured
              else m).
  { intros m Hm. apply String.eqb_neq in Hm. unfold errorMessage.
    destruct err_message; rewrite Hm; reflexivity. }
  rewrite classify_cases.
  destruct (messageIncludes error "API_KEY") eqn:E1;
    [exists msg_invalid_key; split; [reflexivity|]; rewrite Hchosen by discriminate;
     reflexivity|].
  destruct (messageIncludes error "quota" || messageIncludes error "429") eqn:E2;
    [exists msg_quota; split; [reflexivity|]; rewrite Hchosen by discriminate;
     reflexivity|].
  destruct (messageIncludes error "403" || messageIncludes error "PERMISSION_DENIED") eqn:E3;
    [exists msg_forbidden; split; [reflexivity|]; rewrite Hchosen by discriminate;
     reflexivity|].
  destruct (messageIncludes error "400" || messageIncludes error "INVALID_ARGUMENT") eqn:E4;
    [exists msg_invalid_request; split; [reflexivity|]; rewrite Hchosen by discriminate;
     reflexivity|].
  destruct (messageIncludes error "ENOENT") eqn:E5;
    [exists msg_not_found; split; [reflexivity|]; rewrite Hchosen by discriminate;
     reflexivity|].
  exists (msg_analysis_failed error). split; [reflexivity|].
  rewrite Hchosen by discriminate. unfold msg_analysis_failed.
  rewrite !generic_prefix_includes by (cbn [In]; tauto).
  apply orb_false_iff in E2 as [E2 E2'].
  unfold messageIncludes in *.
  destruct (message error) as [m|]; [|reflexivity].
  destruct (String.eqb_spec m "") as [->|Hm]; [reflexivity|].
  rewrite E1, E2. rewrite orb_false_r.
  destruct (Str.includes m "API key"); [reflexivity|].
  destruct (Str.includes m "rate limit"); [reflexivity|].
  destruct (Str.includes m "GEMINI_API_KEY is not set") eqn:Hset; [|reflexivity].
  rewrite (includes_trans m _ "API_KEY" Hset eq_refl) in E1. discriminate.
Qed.

End Adapter.

(** ** The properties at sample worlds *)

Local Abbreviation analyze w :=
  (analyzeFoodWaste Sample.Number_toString Sample.TypeError_message w Sample.imagePath).
Local Abbreviation analyze_try w :=
  (analyzeFoodWaste_try Sample.Number_toString Sample.TypeError_message w Sample.imagePath).
Local Abbreviation field := (get Sample.TypeError_message).
Local Abbreviation attempt name :=
  (generationRequest name (toString_base64 Sample.imageBuffer) (mimeType Sample.imagePath)).

(** C1: a total of the wrong type with items worth 2.5 and 1.0 is
    replaced by 3.5. *)
Lemma total_estimated_value_witness :
  exists result,
    snd (analyze (Sample.replying Sample.reply_total_mistyped)) = Ok result
    /\ field result "totalEstimatedValue" = Ok (VNum 3.5).
Proof.
  destruct (snd (analyze (Sample.replying Sample.reply_total_mistyped)))
    as [result|e] eqn:Hrun; [|vm_compute in Hrun; discriminate].
  exists result. split; [reflexivity|].
  destruct (total_estimated_value Sample.Number_toString Sample.TypeError_message
              _ _ _ Hrun)
    as (text & analysis & upstream & Htext & Hextract & Hup & _ & Hsum).
  vm_compute in Htext. injection Htext as <-.
  vm_compute in Hextract. injection Hextract as <-.
  vm_compute in Hup. injection Hup as <-.
  destruct Hsum as (items & props & total & Hitems & _ & Htotal & Hall & _);
    [discriminate|].
  vm_compute in Hrun. injection Hrun as <-.
  vm_compute in Hitems. injection Hitems as <- <-.
  rewrite Htotal, Hall; [vm_compute; reflexivity|].
  repeat constructor; eexists; (split; [vm_compute; reflexivity|left; reflexivity]).
Defined.

(** C1: a negative upstream total is returned as it is. *)
Lemma total_estimated_value_counterexample :
  exists result,
    snd (analyze (Sample.replying Sample.reply_total_negative)) = Ok result
    /\ field result "totalEstimatedValue" = Ok (VNum (-5))
    /\ PrimFloat.ltb (-5) 0 = true.
Proof.
  eexists. split; [vm_compute; reflexivity|]. split; vm_compute; reflexivity.
Qed.

(** C2: a reply with notes and items but no [estimatedWaste]. *)
Lemma canonical_record_witness :
  exists result,
    snd (analyze (Sample.replying Sample.reply_with_notes)) = Ok result
    /\ field result "items" = Ok (VArr [VObj (<["name" := VStr "rice"]> ∅)] ∅)
    /\ field result "estimatedWaste" = Ok defaultEstimatedWaste
    /\ field result "notes" = Ok (VStr "half of the portion was left").
Proof.
  destruct (snd (analyze (Sample.replying Sample.reply_with_notes)))
    as [result|e] eqn:Hrun; [|vm_compute in Hrun; discriminate].
  exists result. split; [reflexivity|].
  destruct (canonical_record Sample.Number_toString Sample.TypeError_message _ _ _ Hrun)
    as (text & analysis & Htext & Hextract & _ & Hitems & _ & Hwaste & Hnotes).
  vm_compute in Htext. injection Htext as <-.
  vm_compute in Hextract. injection Hextract as <-.
  split; [rewrite (Hitems _ eq_refl); vm_compute; reflexivity|].
  split; [apply (Hwaste VUndefined); reflexivity|].
  rewrite Hnotes. vm_compute. reflexivity.
Defined.

(** C2: for the empty object the returned record has no [notes] at all. *)
Lemma canonical_record_counterexample :
  exists result,
    snd (analyze (Sample.replying Sample.reply_empty_object)) = Ok result
    /\ field result "notes" = Ok VUndefined
    /\ typeof VUndefined <> "string".
Proof.
  eexists. split; [vm_compute; reflexivity|].
  split; [vm_compute; reflexivity|discriminate].
Qed.

(** C3: without a credential no network call is made and the invalid-key
    error is raised. *)
Lemma missing_credential_witness :
  snd (analyze Sample.no_key) = Throw (Error msg_invalid_key)
  /\ fetchCalls (fst (analyze Sample.no_key)) = []
  /\ generationCalls (fst (analyze Sample.no_key)) = [].
Proof.
  destruct (missing_credential Sample.Number_toString Sample.TypeError_message
              Sample.no_key Sample.imagePath (or_introl eq_refl))
    as (Hrun & Hfetch & Hgen & _).
  rewrite Hrun. auto.
Defined.

(** C4: five failures that match no branch of the outer [catch]. *)
Lemma all_candidates_fail_witness :
  snd (analyze (Sample.failing "404 Not Found"))
  = Throw (Error "AI analysis failed: All model attempts failed. Last error: 404 Not Found. Tried models: gemini-pro-vision, gemini-pro, gemini-1.5-pro, gemini-1.5-flash, gemini-1.5-flash-001").
Proof.
  destruct (all_candidates_fail Sample.Number_toString Sample.TypeError_message
              (Sample.failing "404 Not Found") Sample.imagePath "AIza-sample"
              Sample.imageBuffer fallbackModelNames)
    as (lastName & e & _ & He & _ & _ & _ & _ & _ & Hgeneric).
  - reflexivity.
  - discriminate.
  - reflexivity.
  - vm_compute. reflexivity.
  - intros i name _. eexists. reflexivity.
  - injection He as <-. rewrite Hgeneric; [|vm_compute; reflexivity].
    vm_compute. reflexivity.
Defined.

(** C4: five failures by quota; the error raised names no candidate and
    has nothing of the last failure's message. *)
Lemma all_candidates_fail_counterexample :
  snd (analyze (Sample.failing "[429 Too Many Requests] Resource has been exhausted"))
  = Throw (Error msg_quota)
  /\ Str.includes msg_quota "gemini-pro-vision" = false
  /\ Str.includes msg_quota "Resource has been exhausted" = false.
Proof. repeat split; vm_compute; reflexivity. Qed.


(** C6: an object text alone and in a code fence. *)
Lemma fenced_extraction_witness :
  extract (fenced (Str.q "{'items': []}")) = Some (VObj (<["items" := VArr [] ∅]> ∅))
  /\ extract (Str.q "{'items': []}") = Some (VObj (<["items" := VArr [] ∅]> ∅)).
Proof.
  destruct (fenced_extraction (Str.q "{'items': []}") (<["items" := VArr [] ∅]> ∅))
    as (Hfenced & Hplain & _).
  - vm_compute. reflexivity.
  - auto.
Defined.

(** C7: a reply in prose. *)
Lemma unparseable_reply_witness :
  snd (analyze (Sample.replying Sample.reply_prose))
  = Throw (Error "AI analysis failed: Failed to parse AI response. The AI did not return valid JSON.")
  /\ In (ConsoleError [LStr "Error parsing JSON response:"; LStr Sample.reply_prose])
       (fst (analyze (Sample.replying Sample.reply_prose))).
Proof.
  destruct (unparseable_reply Sample.Number_toString Sample.TypeError_message
              (Sample.replying Sample.reply_prose) Sample.imagePath Sample.reply_prose)
    as (_ & Hrun & Hlog).
  - vm_compute. reflexivity.
  - reflexivity.
  - vm_compute. reflexivity.
  - auto.
Defined.

(** C7: the error raised for a reply in prose has nothing of the reply. *)
Lemma unparseable_reply_counterexample :
  exists m,
    snd (analyze (Sample.replying Sample.reply_prose)) = Throw (Error m)
    /\ Str.includes m Sample.reply_prose = false
    /\ Str.includes m "unable" = false.
Proof. eexists. repeat split; vm_compute; reflexivity. Qed.

(** C9: failures by quota. *)
Lemma quota_exceeded_witness :
  snd (analyze (Sample.failing "[429 Too Many Requests] Resource has been exhausted"))
  = Throw (Error msg_quota).
Proof.
  eapply (quota_exceeded Sample.Number_toString Sample.TypeError_message).
  - vm_compute. reflexivity.
  - left. vm_compute. reflexivity.
  - vm_compute. reflexivity.
Defined.

(** C9: a failure whose message has both 429 and API_KEY in it is raised
    as the invalid-key error. *)
Lemma quota_exceeded_counterexample :
  exists error,
    snd (analyze_try (Sample.failing "[429 Too Many Requests] rate limit of this API_KEY"))
    = Throw error
    /\ messageIncludes error "429" = true
    /\ snd (analyze (Sample.failing "[429 Too Many Requests] rate limit of this API_KEY"))
       = Throw (Error msg_invalid_key)
    /\ Error msg_invalid_key <> Error msg_quota.
Proof.
  eexists. split; [vm_compute; reflexivity|].
  split; [vm_compute; reflexivity|]. split; [vm_compute; reflexivity|discriminate].
Qed.

(** C10: the reply [null] under Node's messages. *)
Lemma primitive_reply_witness :
  snd (analyze (Sample.replying Sample.reply_null))
  = Throw (Error "AI analysis failed: Cannot read properties of null (reading 'items')").
Proof.
  destruct (primitive_reply Sample.Number_toString Sample.TypeError_message
              (Sample.replying Sample.reply_null) Sample.imagePath Sample.reply_null VNull)
    as (_ & _ & _ & _ & Hgeneric).
  - vm_compute. reflexivity.
  - vm_compute. reflexivity.
  - reflexivity.
  - rewrite Hgeneric; vm_compute; reflexivity.
Defined.

(** C10: the reply of a JSON string with quota in it, under Node's
    messages, is raised as the quota-exceeded error. *)
Lemma primitive_reply_counterexample :
  extract Sample.reply_quota_string = Some (VStr "quota")
  /\ snd (analyze_try (Sample.replying Sample.reply_quota_string))
     = Throw (Error "Cannot create property 'items' on string 'quota'")
  /\ snd (analyze (Sample.replying Sample.reply_quota_string)) = Throw (Error msg_quota)
  /\ Str.includes msg_quota "AI analysis failed" = false.
Proof. repeat split; vm_compute; reflexivity. Qed.

(** ** Further properties at sample worlds *)

Local Abbreviation route w s file :=
  (analyzeWaste Sample.Number_toString Sample.TypeError_message w s file).

(** Node's message for a missing file names the path: the image that
    cannot be opened is reported as not found, and nothing is requested. *)
Lemma unreadable_image_witness :
  analyze (Sample.unreadable "ENOENT: no such file or directory, open 'uploads/plate.jpg'")
  = ([ConsoleError
        [LStr "Error in AI vision analysis:";
         LExn (Error "ENOENT: no such file or directory, open 'uploads/plate.jpg'")]],
     Throw (Error msg_not_found)).
Proof.
  destruct (unreadable_image Sample.Number_toString Sample.TypeError_message
              (Sample.unreadable "ENOENT: no such file or directory, open 'uploads/plate.jpg'")
              Sample.imagePath "AIza-sample"
              (Error "ENOENT: no such file or directory, open 'uploads/plate.jpg'")
              eq_refl ltac:(discriminate) eq_refl) as [Hrun Hclass].
  rewrite Hrun, (Hclass eq_refl eq_refl). reflexivity.
Defined.


(** The first candidate answers with the empty text: no other candidate is
    tried, and the error names all five. *)
Lemma empty_reply_witness :
  generationCalls (fst (analyze (Sample.replying ""))) = [attempt "gemini-pro-vision"]
  /\ snd (analyze_try (Sample.replying ""))
     = Throw (Error "All model attempts failed. Last error: Unknown error. Tried models: gemini-pro-vision, gemini-pro, gemini-1.5-pro, gemini-1.5-flash, gemini-1.5-flash-001").
Proof.
  destruct (empty_reply Sample.Number_toString Sample.TypeError_message
              (Sample.replying "") Sample.imagePath "AIza-sample" Sample.imageBuffer
              fallbackModelNames 0 "gemini-pro-vision"
              eq_refl ltac:(discriminate) eq_refl eq_refl eq_refl
              ltac:(intros i namei Hi; exfalso; exact (Nat.nlt_0_r i Hi)) eq_refl)
    as (Hcalls & lastError & Htry & Hfirst & _).
  rewrite (Hfirst eq_refl) in Htry. split; [exact Hcalls|exact Htry].
Defined.

Lemma generation_requests_witness :
  exists imageBuffer,
    readFileSync (Sample.replying Sample.reply_fenced) Sample.imagePath = Ok imageBuffer
    /\ promptPart (attempt "gemini-pro-vision") = prompt
    /\ imagePart (attempt "gemini-pro-vision")
       = {| data := toString_base64 imageBuffer; imageMimeType := "image/jpeg" |}
    /\ temperature (generation (config (attempt "gemini-pro-vision"))) = 0.4%float
    /\ responseMimeType (generation (config (attempt "gemini-pro-vision"))) = None.
Proof.
  exact (generation_requests Sample.Number_toString Sample.TypeError_message
           (Sample.replying Sample.reply_fenced) Sample.imagePath
           (attempt "gemini-pro-vision") (or_introl eq_refl)).
Defined.

Lemma normalize_idempotent_witness :
  exists result,
    normalize Sample.Number_toString Sample.TypeError_message (VObj ∅) = Ok result
    /\ normalize Sample.Number_toString Sample.TypeError_message result = Ok result.
Proof.
  eexists. split; [reflexivity|].
  apply (normalize_idempotent Sample.Number_toString Sample.TypeError_message (VObj ∅)).
  reflexivity.
Defined.

(** [0 + '2.5' + 1] is the text [02.51]. *)
Lemma string_estimated_value_witness :
  exists analysis result,
    JSON.parse Sample.reply_string_value = Some analysis
    /\ normalize Sample.Number_toString_01
         (V8.TypeError_message Sample.Number_toString_01) analysis = Ok result
    /\ get (V8.TypeError_message Sample.Number_toString_01) result "totalEstimatedValue"
       = Ok (VStr "02.51").
Proof.
  destruct (JSON.parse Sample.reply_string_value) as [analysis|] eqn:Hparse;
    [|vm_compute in Hparse; discriminate].
  vm_compute in Hparse. injection Hparse as <-.
  destruct (normalize Sample.Number_toString_01
              (V8.TypeError_message Sample.Number_toString_01)
              (VObj (<["items" :=
                       VArr [VObj (<["name" := VStr "rice"]>
                                   (<["estimatedValue" := VStr "2.5"]> ∅));
                             VObj (<["name" := VStr "bread"]>
                                   (<["estimatedValue" := VNum 1]> ∅))] ∅]> ∅)))
    as [result|] eqn:Hnorm; [|vm_compute in Hnorm; discriminate].
  pose proof Hnorm as Hresult. vm_compute in Hresult. injection Hresult as <-.
  destruct (string_estimated_value _ _ _ _ VUndefined
              (VObj (<["name" := VStr "rice"]> (<["estimatedValue" := VStr "2.5"]> ∅)))
              [VObj (<["name" := VStr "rice"]> (<["estimatedValue" := VStr "2.5"]> ∅));
               VObj (<["name" := VStr "bread"]> (<["estimatedValue" := VNum 1]> ∅))]
              ∅ "2.5" Hnorm) as [s Hs].
  - vm_compute. reflexivity.
  - discriminate.
  - vm_compute. reflexivity.
  - left. reflexivity.
  - vm_compute. reflexivity.
  - discriminate.
  - pose proof Hs as Htext. vm_compute in Htext. injection Htext as <-.
    eexists _, _. split; [vm_compute; reflexivity|]. split; [exact Hnorm|]. exact Hs.
Defined.

Lemma raised_errors_witness :
  exists m, snd (analyze Sample.no_key) = Throw (Error m) /\ m <> ""%string.
Proof.
  destruct (snd (analyze Sample.no_key)) as [result|e] eqn:Hrun;
    [vm_compute in Hrun; discriminate|].
  destruct (raised_errors Sample.Number_toString Sample.TypeError_message _ _ e Hrun)
    as (m & -> & Hne & _).
  exists m. split; [reflexivity|exact Hne].
Defined.

Lemma other_properties_untouched_witness :
  exists result upstream,
    snd (analyze (Sample.replying Sample.reply_with_notes)) = Ok result
    /\ extract Sample.reply_with_notes = Some upstream
    /\ field result "name" = field upstream "name".
Proof.
  destruct (snd (analyze (Sample.replying Sample.reply_with_notes)))
    as [result|e] eqn:Hrun; [|vm_compute in Hrun; discriminate].
  destruct (other_properties_untouched Sample.Number_toString Sample.TypeError_message
              _ _ result Hrun) as (text & upstream & Htext & Hextract & Hother).
  vm_compute in Htext. injection Htext as <-.
  exists result, upstream. split; [reflexivity|]. split; [exact Hextract|].
  apply Hother; discriminate.
Defined.

(** A request the service answers with 400 is answered by the route with
    500: the message of the adapter's error no longer holds the code. *)
Lemma analyzeWaste_adapter_failure_witness :
  snd (route (Sample.failing "[400 Bad Request] Unable to process input image")
         Sample.database (Some Sample.upload))
  = Ok {| statusCode := 500;
          jsonBody :=
            VObj (<["error" := VStr "Failed to analyze waste"]>
                  (<["message" := VStr msg_invalid_request]> ∅)) |}.
Proof.
  destruct (snd (analyzeFoodWaste_try Sample.Number_toString Sample.TypeError_message
                   (Sample.failing "[400 Bad Request] Unable to process input image")
                   (path Sample.upload))) as [result|error] eqn:Htry;
    [vm_compute in Htry; discriminate|].
  pose proof Htry as Herror. vm_compute in Herror. injection Herror as <-.
  destruct (analyzeWaste_adapter_failure Sample.Number_toString Sample.TypeError_message
              _ Sample.database Sample.upload _ Htry) as (m & Hm & _ & Hresponse).
  vm_compute in Hm. injection Hm as <-.
  rewrite Hresponse. reflexivity.
Defined.

Lemma analyzeWaste_success_witness :
  exists analysis wasteEntry,
    snd (route (Sample.replying Sample.reply_with_notes) Sample.database
           (Some Sample.upload))
    = Ok {| statusCode := 200;
            jsonBody :=
              VObj (<["success" := VBool true]>
                    (<["analysis" := analysis]> (<["wasteEntry" := wasteEntry]> ∅))) |}
    /\ field wasteEntry "id" = Ok (VNum 1).
Proof.
  destruct (snd (analyzeFoodWaste Sample.Number_toString Sample.TypeError_message
                   (Sample.replying Sample.reply_with_notes) (path Sample.upload)))
    as [analysis|e] eqn:Hrun; [|vm_compute in Hrun; discriminate].
  destruct (analyzeWaste_success Sample.Number_toString Sample.TypeError_message
              _ Sample.database Sample.upload analysis Hrun)
    as (elems & props & estimatedWaste & notes & _ & _ & _ & _ & Hresponse).
  rewrite Hresponse. cbn [logWaste Sample.database].
  eexists _, _. split; reflexivity.
Defined.

